(** * torchio: images dataset and random affine augmentation

    A shallow embedding of [torchio/data/images.py] and
    [torchio/transforms/augmentation/spatial/random_affine.py].

    The Python code is glue over PyTorch, NumPy, SimpleITK and pathlib.
    Library calls are the fields of a class of externals; the code of the
    two modules is written over them in a state-and-exception monad whose
    state holds the object store (tensors and dicts are mutable objects
    reached through references), the global random generator, the file
    system and a trace of the input/output performed. *)

From Stdlib Require Floats.SpecFloat.
From stdpp Require Import gmap strings list.

Set Default Proof Using "Type".
Set Warnings "-register-all".

(** ** Python exceptions and results *)

Inductive pyerror :=
| TypeError | ValueError | KeyError | IndexError
| FileNotFoundError | AssertionError | AttributeError
| RuntimeError | PermissionError.

Inductive result (A : Type) :=
| Ok (a : A)
| Raise (e : pyerror).
Arguments Ok {A} a.
Arguments Raise {A} e.

(** ** Python dicts: insertion-ordered, one binding per key *)

Definition pydict (V : Type) := list (string * V).

Fixpoint dict_get {V} (k : string) (d : pydict V) : option V :=
  match d with
  | [] => None
  | (k', v) :: r => if decide (k = k') then Some v else dict_get k r
  end.

(** [d[k] = v]: an existing key keeps its place, a new key goes last. *)
Fixpoint dict_set {V} (k : string) (v : V) (d : pydict V) : pydict V :=
  match d with
  | [] => [(k, v)]
  | (k', v') :: r =>
      if decide (k = k') then (k, v) :: r else (k', v') :: dict_set k v r
  end.

Definition dict_keys {V} (d : pydict V) : list string := d.*1.
Definition dict_values {V} (d : pydict V) : list V := d.*2.

(** ** The types of the libraries *)

Class Types := {
  num : Type;               (* Python and NumPy floating point numbers *)
  tensor : Type;            (* contents of a torch.Tensor *)
  ndarray : Type;           (* numpy.ndarray *)
  sitk_image : Type;        (* SimpleITK.Image *)
  sitk_interpolator : Type; (* sitk.sitkLinear, sitk.sitkNearestNeighbor, ... *)
  Interpolation : Type;     (* the enum torchio.transforms.Interpolation *)
  rng : Type;               (* state of torch's global generator *)
  filesystem : Type;
}.

Definition loc := nat.

Section Values.
Context `{Types}.

(** Values held by samples and image dicts.  Tensors and dicts are
    references into the store; the rest is immutable here. *)
Inductive value :=
| VTensor (l : loc)
| VDict (l : loc)
| VArray (a : ndarray)
| VStr (s : string)
| VFloats (xs : list num).

(** SimpleITK transforms, as the parameters they carry. *)
Inductive sitk_transform :=
| ScaleTransform (dimension : nat) (scale : list num)
| Euler3DTransform (angleX angleY angleZ : num)
| CompositeTransform (dimension : nat) (queue : list sitk_transform).

(** The [degrees] argument of a random transform: a number or a range. *)
Inductive degrees_arg :=
| DegNumber (x : num)
| DegRange (r : num * num).

Inductive event :=
| EvIsFile (p : string)
| EvIsDir (p : string)
| EvReadImage (p : string)
| EvWarn (p : string).

Record world := World {
  tensors : gmap loc tensor;
  dicts : gmap loc (pydict value);
  generator : rng;
  files : filesystem;
  trace : list event;
}.

Definition set_tensors (w : world) (ts : gmap loc tensor) : world :=
  World ts (dicts w) (generator w) (files w) (trace w).
Definition set_dicts (w : world) (ds : gmap loc (pydict value)) : world :=
  World (tensors w) ds (generator w) (files w) (trace w).
Definition set_generator (w : world) (g : rng) : world :=
  World (tensors w) (dicts w) g (files w) (trace w).
Definition log (w : world) (e : event) : world :=
  World (tensors w) (dicts w) (generator w) (files w) (trace w ++ [e]).

(** ** The monad: state is kept when an exception is raised *)

Definition M (A : Type) := world → result A * world.

Definition ret {A} (a : A) : M A := λ w, (Ok a, w).
Definition raise {A} (e : pyerror) : M A := λ w, (Raise e, w).
Definition bind {A B} (m : M A) (k : A → M B) : M B :=
  λ w, match m w with
       | (Ok a, w') => k a w'
       | (Raise e, w') => (Raise e, w')
       end.
Definition lift {A} (r : result A) : M A := λ w, (r, w).

End Values.

Notation "'do' x <- m ; k" := (bind m (λ x, k))
  (at level 10, x name, m at level 100, k at level 200).
Notation "'do' ' p <- m ; k" := (bind m (λ x, match x with p => k end))
  (at level 10, p pattern, m at level 100, k at level 200).

(** ** The library functions *)

Class Externals `{Types} := {
  (* numbers *)
  num_zero : num;
  num_one : num;
  num_le : num → num → Prop;
  np_divide : num → num → num;           (* x / y *)
  np_radians : num → num;                (* np.radians *)
  (* torch: a FloatTensor holds single precision numbers.  [float32 x] is
     the number it stores for the Python float [x]; [draw_uniform g a b] is
     one entry of [t.uniform_(a, b)] on such a tensor, read back as a Python
     float, and the generator after it *)
  uninitialized : num;                   (* an entry of torch.FloatTensor(n) *)
  float32 : num → num;
  draw_uniform : rng → num → num → num * rng;
  tensor_shape : tensor → list nat;
  tensor_getitem0 : tensor → tensor;            (* array[0] *)
  tensor_setitem0 : tensor → tensor → tensor;   (* array[0] = x *)
  tensor_unsqueeze0 : tensor → tensor;          (* tensor.unsqueeze(0) *)
  isnan_any : tensor → bool;                    (* torch.isnan(t).any() *)
  torch_from_numpy : ndarray → tensor;
  (* numpy *)
  np_transpose : ndarray → ndarray;
  (* SimpleITK *)
  sitk_Resample : sitk_image → sitk_transform → sitk_interpolator → sitk_image;
  sitk_GetArrayFromImage : sitk_image → ndarray;
  (* pathlib and the file system: [expanduser] raises RuntimeError when
     the home directory of a [~user] cannot be determined, and the two
     queries let an OSError through that is not about a missing path *)
  expanduser : string → result string;
  is_file : filesystem → string → result bool;
  is_dir : filesystem → string → result bool;
  (* torchio, outside the two modules: constants, the interpolation enum
     and helper functions that the two modules import *)
  DATA : string;
  AFFINE : string;
  LABEL : string;
  NEAREST : Interpolation;
  LINEAR : Interpolation;
  interpolation_value : Interpolation → sitk_interpolator;   (* .value *)
  read_image : filesystem → string → tensor * ndarray;
  get_stem : string → string;
  is_image_dict : gmap loc (pydict value) → value → bool;
  check_consistent_shape :
    gmap loc tensor → gmap loc (pydict value) → pydict value → bool;
  nib_to_sitk : tensor → ndarray → sitk_image;
  parse_interpolation : Interpolation → result Interpolation;
  parse_degrees : degrees_arg → result (num * num);
}.

Section Images.
Context `{Externals}.

(** ** torchio/data/images.py *)

(** What a caller may pass where a path is expected. *)
Inductive pyarg :=
| ArgStr (s : string)
| ArgPath (p : string)
| ArgOther.

(** [pathlib.Path(x)]: a str or a path-like object, else TypeError. *)
Definition Path (x : pyarg) : result string :=
  match x with
  | ArgStr s => Ok s
  | ArgPath p => Ok p
  | ArgOther => Raise TypeError
  end.

Definition path_is_file (p : string) : M bool :=
  λ w, (is_file (files w) p, log w (EvIsFile p)).
Definition path_is_dir (p : string) : M bool :=
  λ w, (is_dir (files w) p, log w (EvIsDir p)).

Record Image := mkImage {
  Image_name : string;
  Image_path : string;
  Image_type : string;
}.

(** [Path(path).expanduser()], the body of the [try]. *)
Definition Path_expanduser (path : pyarg) : result string :=
  match Path path with
  | Ok p => expanduser p
  | Raise e => Raise e
  end.

Definition Image__parse_path (self_name : string) (path : pyarg) : M string :=
  do path <- match Path_expanduser path with
             | Ok p => ret p
             | Raise TypeError => raise TypeError
             | Raise e => raise e
             end;
  do f <- path_is_file path;
  do fd <- (if f then ret true else path_is_dir path);
  if negb fd then raise FileNotFoundError else ret path.

Definition Image_init (name : string) (path : pyarg) (type_ : string) : M Image :=
  do path <- Image__parse_path name path;
  ret (mkImage name path type_).

Definition alloc_tensor (t : tensor) : M loc :=
  λ w, let l := fresh (dom (tensors w)) in
       (Ok l, set_tensors w (<[l := t]> (tensors w))).

Definition alloc_dict (d : pydict value) : M loc :=
  λ w, let l := fresh (dom (dicts w)) in
       (Ok l, set_dicts w (<[l := d]> (dicts w))).

Definition read_image_io (p : string) : M (tensor * ndarray) :=
  λ w, (Ok (read_image (files w) p), log w (EvReadImage p)).

Definition warnings_warn (p : string) : M unit :=
  λ w, (Ok tt, log w (EvWarn p)).

(** [load] returns the new tensor object and the affine matrix. *)
Definition Image_load (self : Image) (check_nans : bool) : M (loc * ndarray) :=
  do '(tensor, affine) <- read_image_io (Image_path self);
  let tensor := tensor_unsqueeze0 tensor in
  do _ <- (if check_nans && isnan_any tensor
           then warnings_warn (Image_path self) else ret tt);
  do l <- alloc_tensor tensor;
  ret (l, affine).

(** Any object passed where an [Image] is expected. *)
Inductive pyobj :=
| ObjImage (image : Image)
| ObjOther.

(** [Subject] is a list with a name. *)
Record Subject := mkSubject {
  Subject_items : list pyobj;
  Subject_name : string;
}.

Fixpoint parse_images_loop (images : list pyobj) (names : list string)
  : result unit :=
  match images with
  | [] => Ok tt
  | ObjOther :: _ => Raise TypeError
  | ObjImage image :: rest =>
      if decide (Image_name image ∈ names) then Raise KeyError
      else parse_images_loop rest (names ++ [Image_name image])
  end.

(** [images] is the tuple of positional arguments, so the test that it is
    a sequence passes. *)
Definition Subject__parse_images (images : list pyobj) : result unit :=
  match images with
  | [] => Raise ValueError
  | _ => parse_images_loop images []
  end.

Definition Subject_init (images : list pyobj) (name : string) : result Subject :=
  match Subject__parse_images images with
  | Raise e => Raise e
  | Ok _ => Ok (mkSubject images name)
  end.

Record ImagesDataset := mkImagesDataset {
  subjects : list (list pyobj);
  _transform : option (pydict value → M (pydict value));
  check_nans : bool;
}.

Fixpoint parse_subjects_loop (subjects_list : list (list pyobj)) : result unit :=
  match subjects_list with
  | [] => Ok tt
  | subject_list :: rest =>
      match Subject_init subject_list "" with
      | Raise e => Raise e
      | Ok _ => parse_subjects_loop rest
      end
  end.

Definition ImagesDataset__parse_subjects_list
    (subjects_list : list (list pyobj)) : result unit :=
  match subjects_list with
  | [] => Raise ValueError
  | _ => parse_subjects_loop subjects_list
  end.

Definition ImagesDataset_init (subjects : list (list pyobj))
    (transform : option (pydict value → M (pydict value)))
    (check_nans : bool) : result ImagesDataset :=
  match ImagesDataset__parse_subjects_list subjects with
  | Raise e => Raise e
  | Ok _ => Ok (mkImagesDataset subjects transform check_nans)
  end.

Definition ImagesDataset_len (self : ImagesDataset) : nat :=
  length (subjects self).

(** [l[index]] on a Python list: negative indices count from the end. *)
Definition list_getitem {A} (l : list A) (index : Z) : result A :=
  let n := Z.of_nat (length l) in
  let i := if (index <? 0)%Z then (index + n)%Z else index in
  if (i <? 0)%Z then Raise IndexError
  else match l !! Z.to_nat i with
       | Some x => Ok x
       | None => Raise IndexError
       end.

(** A dict display [{k1: v1, k2: v2, ...}]. *)
Definition dict_display {V} (items : list (string * V)) : pydict V :=
  fold_left (λ d kv, dict_set kv.1 kv.2 d) items [].

Definition getitem_body (self : ImagesDataset) (sample : pydict value)
    (image : pyobj) : M (pydict value) :=
  match image with
  | ObjOther => raise AttributeError
  | ObjImage image =>
      do '(tensor, affine) <- Image_load image (check_nans self);
      do image_dict <- alloc_dict (dict_display [
        (DATA, VTensor tensor);
        (AFFINE, VArray affine);
        ("type", VStr (Image_type image));
        ("path", VStr (Image_path image));
        ("stem", VStr (get_stem (Image_path image)))]);
      ret (dict_set (Image_name image) (VDict image_dict) sample)
  end.

Fixpoint getitem_loop (self : ImagesDataset) (subject : list pyobj)
    (sample : pydict value) : M (pydict value) :=
  match subject with
  | [] => ret sample
  | image :: rest =>
      do sample <- getitem_body self sample image;
      getitem_loop self rest sample
  end.

Definition ImagesDataset_getitem (self : ImagesDataset) (index : Z)
  : M (pydict value) :=
  do subject <- lift (list_getitem (subjects self) index);
  do sample <- getitem_loop self subject [];
  match _transform self with
  | Some transform => transform sample
  | None => ret sample
  end.

Definition ImagesDataset_set_transform (self : ImagesDataset)
    (transform : option (pydict value → M (pydict value))) : ImagesDataset :=
  mkImagesDataset (subjects self) transform (check_nans self).

End Images.

Section RandomAffineModel.
Context `{Externals}.

(** ** torchio/transforms/augmentation/spatial/random_affine.py *)

Record RandomAffine := mkRandomAffine {
  scales : num * num;
  degrees : num * num;
  isotropic : bool;
  interpolation : Interpolation;
}.

(** The seed and the verbosity go to the base class, which is not part of
    this module. *)
Definition RandomAffine_init (scales : num * num) (degrees : degrees_arg)
    (isotropic : bool) (image_interpolation : Interpolation)
  : result RandomAffine :=
  match parse_degrees degrees with
  | Raise e => Raise e
  | Ok degrees =>
      match parse_interpolation image_interpolation with
      | Raise e => Raise e
      | Ok interpolation =>
          Ok (mkRandomAffine scales degrees isotropic interpolation)
      end
  end.

(** One-dimensional float tensors are lists of numbers. *)
Definition torch_FloatTensor (n : nat) : list num := replicate n uninitialized.

(** One draw from the global generator. *)
Definition draw (a b : num) : M num :=
  λ w, let '(x, g) := draw_uniform (generator w) a b in
       (Ok x, set_generator w g).

(** [t.uniform_(a, b)] overwrites each entry with a fresh draw.  The
    bounds are taken in increasing order, as torch documents them: what
    torch does with [a > b] changed between its versions and is left
    out. *)
Fixpoint uniform_ (t : list num) (a b : num) : M (list num) :=
  match t with
  | [] => ret []
  | _ :: r =>
      do x <- draw a b;
      do r' <- uniform_ r a b;
      ret (x :: r')
  end.

Definition fill_ (t : list num) (v : num) : list num := map (λ _, v) t.

Definition get_params (scales degrees : num * num) (isotropic : bool)
  : M (list num * list num) :=
  do scaling_params <- uniform_ (torch_FloatTensor 3) scales.1 scales.2;
  let scaling_params :=
    if isotropic
    then fill_ scaling_params (nth 0 scaling_params uninitialized)
    else scaling_params in
  do rotation_params <- uniform_ (torch_FloatTensor 3) degrees.1 degrees.2;
  ret (scaling_params, rotation_params).

(** [sitk.ScaleTransform(d)] starts as the identity. *)
Definition sitk_ScaleTransform (d : nat) : sitk_transform :=
  ScaleTransform d (replicate d num_one).

(** [transform.SetScale(v)], called here with the three factors of a
    three-dimensional transform. *)
Definition SetScale (t : sitk_transform) (v : list num) : sitk_transform :=
  match t with
  | ScaleTransform d _ => ScaleTransform d v
  | _ => t
  end.

Definition get_scaling_transform (scaling_params : list num) : sitk_transform :=
  let transform := sitk_ScaleTransform 3 in
  let scaling_params := map (np_divide num_one) scaling_params in
  SetScale transform scaling_params.

Definition sitk_Euler3DTransform : sitk_transform :=
  Euler3DTransform num_zero num_zero num_zero.

(** [transform.SetRotation( *angles )] takes exactly three angles. *)
Definition SetRotation_star (t : sitk_transform) (angles : list num)
  : result sitk_transform :=
  match angles with
  | [x; y; z] =>
      Ok (match t with
          | Euler3DTransform _ _ _ => Euler3DTransform x y z
          | _ => t
          end)
  | _ => Raise TypeError
  end.

Definition get_rotation_transform (degrees : list num) : result sitk_transform :=
  let transform := sitk_Euler3DTransform in
  let radians := map np_radians degrees in
  SetRotation_star transform radians.

(** [sitk.Transform(d, sitk.sitkComposite)] *)
Definition sitk_Transform_composite (d : nat) : sitk_transform :=
  CompositeTransform d [].

Definition AddTransform (t u : sitk_transform) : sitk_transform :=
  match t with
  | CompositeTransform d q => CompositeTransform d (q ++ [u])
  | _ => t
  end.

Definition assert (b : bool) : M unit :=
  if b then ret tt else raise AssertionError.

Definition read_tensor (l : loc) : M tensor :=
  λ w, match tensors w !! l with
       | Some t => (Ok t, w)
       | None => (Raise AttributeError, w)
       end.

Definition write_tensor (l : loc) (t : tensor) : M unit :=
  λ w, (Ok tt, set_tensors w (<[l := t]> (tensors w))).

(** [array] is a reference to a tensor: the assignment [array[0] = ...]
    changes the object it refers to, and the same reference is returned. *)
Definition apply_affine_transform (self : RandomAffine) (array : loc)
    (affine : ndarray) (scaling_params rotation_params : list num)
    (interpolation : Interpolation) : M loc :=
  do t <- read_tensor array;
  do _ <- assert (bool_decide (length (tensor_shape t) = 4));
  do _ <- assert (bool_decide (tensor_shape t !! 0 = Some 1));
  let image := nib_to_sitk (tensor_getitem0 t) affine in
  let scaling_transform := get_scaling_transform scaling_params in
  do rotation_transform <- lift (get_rotation_transform rotation_params);
  let transform := sitk_Transform_composite 3 in
  let transform := AddTransform transform scaling_transform in
  let transform := AddTransform transform rotation_transform in
  let resampled :=
    sitk_Resample image transform (interpolation_value interpolation) in
  let np_array := sitk_GetArrayFromImage resampled in
  let np_array := np_transpose np_array in
  do _ <- write_tensor array (tensor_setitem0 t (torch_from_numpy np_array));
  ret array.

(** [v[k]] and [v[k] = x] for a value that should be a dict. *)
Definition value_getitem (v : value) (k : string) : M value :=
  λ w, match v with
       | VDict l =>
           match dicts w !! l with
           | Some d =>
               match dict_get k d with
               | Some x => (Ok x, w)
               | None => (Raise KeyError, w)
               end
           | None => (Raise TypeError, w)
           end
       | _ => (Raise TypeError, w)
       end.

Definition value_setitem (v : value) (k : string) (x : value) : M unit :=
  λ w, match v with
       | VDict l =>
           match dicts w !! l with
           | Some d => (Ok tt, set_dicts w (<[l := dict_set k x d]> (dicts w)))
           | None => (Raise TypeError, w)
           end
       | _ => (Raise TypeError, w)
       end.

(** The entry under [DATA] is used as a tensor and the one under [AFFINE]
    as an array, which is how [__getitem__] builds them; any other value
    raises here. *)
Definition as_tensor (v : value) : M loc :=
  match v with VTensor l => ret l | _ => raise TypeError end.
Definition as_array (v : value) : M ndarray :=
  match v with VArray a => ret a | _ => raise TypeError end.

(** [x == LABEL] *)
Definition eq_LABEL (x : value) : bool :=
  match x with VStr s => bool_decide (s = LABEL) | _ => false end.

Definition apply_transform_body (self : RandomAffine)
    (scaling_params rotation_params : list num) (image_dict : value) : M unit :=
  do b <- (λ w, (Ok (is_image_dict (dicts w) image_dict), w));
  if negb b then ret tt else
  do type_ <- value_getitem image_dict "type";
  let interpolation :=
    if eq_LABEL type_ then NEAREST else interpolation self in
  do data <- value_getitem image_dict DATA;
  do affine <- value_getitem image_dict AFFINE;
  do data <- as_tensor data;
  do affine <- as_array affine;
  do r <- apply_affine_transform self data affine
            scaling_params rotation_params interpolation;
  value_setitem image_dict DATA (VTensor r).

Fixpoint apply_transform_loop (self : RandomAffine)
    (scaling_params rotation_params : list num) (values : list value)
  : M unit :=
  match values with
  | [] => ret tt
  | image_dict :: rest =>
      do _ <- apply_transform_body self scaling_params rotation_params image_dict;
      apply_transform_loop self scaling_params rotation_params rest
  end.

(** The sample is the caller's dict, passed and returned by value: a call
    that raises returns no sample, and the entries it had stored in the
    caller's dict by then are not represented.  [check_consistent_shape]
    is the test that the image shapes agree, with its ValueError. *)
Definition RandomAffine_apply_transform (self : RandomAffine)
    (sample : pydict value) : M (pydict value) :=
  do _ <- (λ w, if check_consistent_shape (tensors w) (dicts w) sample
                then (Ok tt, w) else (Raise ValueError, w));
  do '(scaling_params, rotation_params) <-
       get_params (scales self) (degrees self) (isotropic self);
  let sample := dict_set "random_scaling" (VFloats scaling_params) sample in
  let sample := dict_set "random_rotation" (VFloats rotation_params) sample in
  do _ <- apply_transform_loop self scaling_params rotation_params
            (dict_values sample);
  ret sample.

End RandomAffineModel.

(** ** [ImagesDataset.save_sample]

    [write_image] of [torchio/data/io.py] writes a volume and its affine
    matrix to a path; it is one more library function, on the file
    system. *)

Class Writer `{Externals} := {
  write_image : filesystem → tensor → ndarray → string → filesystem;
}.

Section SaveSample.
Context `{Writer}.

Definition set_files (w : world) (fs : filesystem) : world :=
  World (tensors w) (dicts w) (generator w) fs (trace w).

Definition write_image_io (t : tensor) (affine : ndarray) (p : string)
  : M unit :=
  λ w, (Ok tt, set_files w (write_image (files w) t affine p)).

(** [d[k]] on a dict held by value. *)
Definition dict_getitem {V} (d : pydict V) (k : string) : M V :=
  match dict_get k d with
  | Some v => ret v
  | None => raise KeyError
  end.

(** One pass of the loop.  [tensor_getitem0] is [t[0]] on a tensor whose
    first dimension is not empty. *)
Definition save_sample_body (sample : pydict value)
    (key output_path : string) : M unit :=
  do image_dict <- dict_getitem sample key;
  do data <- value_getitem image_dict DATA;
  do data <- as_tensor data;
  do t <- read_tensor data;
  let tensor := tensor_getitem0 t in
  do image_dict <- dict_getitem sample key;
  do affine <- value_getitem image_dict AFFINE;
  do affine <- as_array affine;
  write_image_io tensor affine output_path.

Fixpoint save_sample_loop (sample : pydict value)
    (items : list (string * string)) : M unit :=
  match items with
  | [] => ret tt
  | (key, output_path) :: rest =>
      do _ <- save_sample_body sample key output_path;
      save_sample_loop sample rest
  end.

Definition ImagesDataset_save_sample (sample : pydict value)
    (output_paths_dict : pydict string) : M unit :=
  save_sample_loop sample output_paths_dict.

End SaveSample.

(** ** A small instance of the libraries, to run the code on examples

    Numbers are integers counting thousandths; a tensor or an array is a
    shape with one integer standing for its contents; an image is an array
    on SimpleITK's reversed axes. *)

Module Toy.

Inductive interp := Nearest | Linear | BSpline.

#[export] Instance types : Types := {|
  num := Z;
  tensor := list nat * Z;
  ndarray := list nat * Z;
  sitk_image := list nat * Z;
  sitk_interpolator := Z;
  Interpolation := interp;
  rng := Z;
  filesystem := list string * list string;
|}.

Fixpoint checksum (t : sitk_transform) : Z :=
  match t with
  | ScaleTransform _ v => foldr Z.add 0%Z v
  | Euler3DTransform x y z => (x + y + z)%Z
  | CompositeTransform _ q => foldr (λ u acc, (checksum u + acc)%Z) 0%Z q
  end.

Definition has_key (k : string) (d : pydict value) : bool :=
  bool_decide (is_Some (dict_get k d)).

Definition shape_of (ts : gmap loc (list nat * Z)) (ds : gmap loc (pydict value))
    (v : value) : option (list nat) :=
  match v with
  | VDict l =>
      match ds !! l with
      | Some d =>
          match dict_get "data" d with
          | Some (VTensor tl) => fst <$> ts !! tl
          | _ => None
          end
      | None => None
      end
  | _ => None
  end.

(** One user, [user], whose home is [/home/user]; only the superuser may
    look into [/root]. *)
Definition toy_expanduser (p : string) : result string :=
  match p with
  | String a r =>
      if Ascii.eqb a (Ascii.Ascii false true true true true true true false) then
        if String.eqb r "" || String.prefix "/" r
        then Ok ("/home/user" +:+ r)
        else if String.eqb r "user" || String.prefix "user/" r
        then Ok ("/home/" +:+ r)
        else Raise RuntimeError
      else Ok p
  | EmptyString => Ok p
  end.

#[export] Instance externals : Externals := {|
  num_zero := 0%Z;
  num_one := 1000%Z;
  num_le := Z.le;
  np_divide := λ x y, (x * 1000 / y)%Z;
  np_radians := λ x, (x * 3142 / 180)%Z;
  uninitialized := (-1)%Z;
  float32 := λ x, x;
  draw_uniform := λ g a b, ((a + g `mod` (b - a + 1))%Z, (g + 7)%Z);
  tensor_shape := fst;
  tensor_getitem0 := λ t, (tail t.1, t.2);
  tensor_setitem0 := λ t x, (t.1, x.2);
  tensor_unsqueeze0 := λ t, (1 :: t.1, t.2);
  isnan_any := λ t, (t.2 <? 0)%Z;
  torch_from_numpy := λ a, a;
  np_transpose := λ a, (reverse a.1, a.2);
  sitk_Resample := λ image t i, (image.1, (image.2 + checksum t + i)%Z);
  sitk_GetArrayFromImage := λ image, (reverse image.1, image.2);
  expanduser := toy_expanduser;
  is_file := λ fs p,
    if String.prefix "/root/" p then Raise PermissionError
    else Ok (bool_decide (p ∈ fs.1));
  is_dir := λ fs p,
    if String.prefix "/root/" p then Raise PermissionError
    else Ok (bool_decide (p ∈ fs.2));
  DATA := "data";
  AFFINE := "affine";
  LABEL := "label";
  NEAREST := Nearest;
  LINEAR := Linear;
  interpolation_value := λ i,
    match i with Nearest => 1%Z | Linear => 2%Z | BSpline => 3%Z end;
  read_image := λ fs p,
    (([4; 5; 6], (100 * Z.of_nat (String.length p))%Z), ([4; 4], 1%Z));
  get_stem := λ p, p;
  is_image_dict := λ ds v,
    match v with
    | VDict l =>
        match ds !! l with
        | Some d => has_key "type" d && has_key "data" d && has_key "affine" d
        | None => false
        end
    | _ => false
    end;
  check_consistent_shape := λ ts ds sample,
    match omap (shape_of ts ds) (dict_values sample) with
    | [] => true
    | s :: r => forallb (λ s', bool_decide (s' = s)) r
    end;
  nib_to_sitk := λ t a, (reverse t.1, t.2);
  parse_interpolation := Ok;
  parse_degrees := λ d,
    match d with
    | DegNumber x => if (x <? 0)%Z then Raise ValueError else Ok ((- x)%Z, x)
    | DegRange (a, b) => if (b <? a)%Z then Raise ValueError else Ok (a, b)
    end;
|}.

Definition fs : filesystem := (["/data/t1.nii"; "/data/seg.nii"], ["/data/dicom"]).

Definition world0 : world := World ∅ ∅ 5%Z fs [].

(** A file system with a file in the home directory of [user]. *)
Definition world_home : world := World ∅ ∅ 5%Z (["/home/user/t2.nii"], []) [].

Definition t1 : Image := mkImage "t1" "/data/t1.nii" "intensity".
Definition seg : Image := mkImage "seg" "/data/seg.nii" "label".

Definition affine_default : RandomAffine :=
  mkRandomAffine (900, 1100)%Z (-10000, 10000)%Z false Linear.

(** A subject with an intensity image and a label map, loaded by a dataset
    without transform. *)
Definition subject1 : list pyobj := [ObjImage t1; ObjImage seg].

Definition dataset1 : ImagesDataset := mkImagesDataset [subject1] None true.

Definition sample1 : pydict value := [("t1", VDict 0); ("seg", VDict 1)].

Definition world1 : world := (ImagesDataset_getitem dataset1 0 world0).2.

(** The same sample after a first pass through the transform. *)
Definition sample2 : pydict value :=
  [("t1", VDict 0); ("seg", VDict 1);
   ("random_scaling", VFloats [905; 912; 919]%Z);
   ("random_rotation", VFloats [-9974; -9967; -9960]%Z)].

Definition world2 : world :=
  (RandomAffine_apply_transform affine_default sample1 world1).2.

(** Two image dicts that refer to one tensor. *)
Definition shared_sample : pydict value := [("a", VDict 0); ("b", VDict 1)].

Definition shared_world : world :=
  World {[ 0 := ([1; 4; 5; 6], 1200%Z) ]}
        {[ 0 := [("data", VTensor 0); ("affine", VArray ([4; 4], 1%Z));
                 ("type", VStr "intensity")];
           1 := [("data", VTensor 0); ("affine", VArray ([4; 4], 1%Z));
                 ("type", VStr "intensity")] ]}
        5%Z fs [].

#[export] Instance writer : Writer := {|
  write_image := λ fs t affine p, (fs.1 ++ [p], fs.2);
|}.

(** A label map stored with a missing channel dimension. *)
Definition flat_world : world :=
  World {[ 0 := ([1; 4; 5; 6], 1200%Z); 1 := ([4; 5; 6], 1300%Z) ]}
        {[ 0 := [("data", VTensor 0); ("affine", VArray ([4; 4], 1%Z));
                 ("type", VStr "intensity")];
           1 := [("data", VTensor 1); ("affine", VArray ([4; 4], 1%Z));
                 ("type", VStr "label")] ]}
        5%Z fs [].

(** Output paths for the two images of [sample1], and a dataset that
    applies [affine_default] to what it loads. *)
Definition outputs1 : pydict string :=
  [("t1", "/out/t1.nii"); ("seg", "/out/seg.nii")].

Definition dataset_affine : ImagesDataset :=
  mkImagesDataset [subject1]
    (Some (RandomAffine_apply_transform affine_default)) true.

End Toy.

(** ** An instance with floating point numbers

    Python floats are IEEE 754 double precision numbers and the entries of
    a [torch.FloatTensor] are single precision numbers.  Numbers are the
    floats of the Standard Library's specification of IEEE 754 arithmetic,
    kept in the canonical form of double precision. *)

Module Ieee.

Definition binary64 : Type := SpecFloat.spec_float.

Definition of_Z (n : Z) : binary64 := SpecFloat.binary_normalize 53 1024 n 0 false.

(** The float written [n / d] in decimal notation, as [0.9] for nine
    tenths: the double nearest to the quotient. *)
Definition ratio (n d : Z) : binary64 :=
  SpecFloat.SFdiv 53 1024 (of_Z n) (of_Z d).

(** Rounding to single precision (overflow gives an infinity), and a
    single precision number as a double, which is exact. *)
Definition to_binary32 (x : binary64) : SpecFloat.spec_float :=
  match x with
  | SpecFloat.S754_finite s m e =>
      SpecFloat.binary_normalize 24 128 (SpecFloat.cond_Zopp s (Z.pos m)) e s
  | _ => x
  end.

Definition of_binary32 (x : SpecFloat.spec_float) : binary64 :=
  match x with
  | SpecFloat.S754_finite s m e =>
      SpecFloat.binary_normalize 53 1024 (SpecFloat.cond_Zopp s (Z.pos m)) e s
  | _ => x
  end.

(** An entry of [uniform_(a, b)] on a float tensor, computed the way
    torch's kernel for the CPU does: with [u] the next 24 random bits
    scaled into [0, 1), the value of [u * (b - a) + a] in single precision
    arithmetic on the rounded bounds. *)
Definition uniform32 (g : Z) (a b : binary64) : binary64 :=
  let a := to_binary32 a in
  let b := to_binary32 b in
  let u := SpecFloat.binary_normalize 24 128 (g `mod` 2 ^ 24) (-24) false in
  of_binary32
    (SpecFloat.SFadd 24 128
       (SpecFloat.SFmul 24 128 u (SpecFloat.SFsub 24 128 b a)) a).

#[export] Instance types : Types := {|
  num := binary64;
  tensor := list nat * Z;
  ndarray := list nat * Z;
  sitk_image := list nat * Z;
  sitk_interpolator := Z;
  Interpolation := Toy.interp;
  rng := Z;
  filesystem := list string * list string;
|}.

Definition has_key (k : string) (d : pydict value) : bool :=
  bool_decide (is_Some (dict_get k d)).

#[export] Instance externals : Externals := {|
  num_zero := SpecFloat.S754_zero false;
  num_one := of_Z 1;
  num_le := λ x y, SpecFloat.SFleb x y = true;
  np_divide := SpecFloat.SFdiv 53 1024;
  (* x * (pi / 180) *)
  np_radians := λ x,
    SpecFloat.SFmul 53 1024 x
      (SpecFloat.S754_finite false 5030569068109113 (-58));
  uninitialized := SpecFloat.S754_zero false;
  float32 := λ x, of_binary32 (to_binary32 x);
  draw_uniform := λ g a b,
    (uniform32 g a b, ((1103515245 * g + 12345) `mod` 2 ^ 31)%Z);
  tensor_shape := fst;
  tensor_getitem0 := λ t, (tail t.1, t.2);
  tensor_setitem0 := λ t x, (t.1, x.2);
  tensor_unsqueeze0 := λ t, (1 :: t.1, t.2);
  isnan_any := λ t, (t.2 <? 0)%Z;
  torch_from_numpy := λ a, a;
  np_transpose := λ a, (reverse a.1, a.2);
  sitk_Resample := λ image t i, (image.1, (image.2 + i)%Z);
  sitk_GetArrayFromImage := λ image, (reverse image.1, image.2);
  expanduser := Toy.toy_expanduser;
  is_file := λ fs p, Ok (bool_decide (p ∈ fs.1));
  is_dir := λ fs p, Ok (bool_decide (p ∈ fs.2));
  DATA := "data";
  AFFINE := "affine";
  LABEL := "label";
  NEAREST := Toy.Nearest;
  LINEAR := Toy.Linear;
  interpolation_value := λ i,
    match i with
    | Toy.Nearest => 1%Z | Toy.Linear => 2%Z | Toy.BSpline => 3%Z
    end;
  read_image := λ fs p, (([4; 5; 6], 0%Z), ([4; 4], 1%Z));
  get_stem := λ p, p;
  is_image_dict := λ ds v,
    match v with
    | VDict l =>
        match ds !! l with
        | Some d => has_key "type" d && has_key "data" d && has_key "affine" d
        | None => false
        end
    | _ => false
    end;
  check_consistent_shape := λ ts ds sample, true;
  nib_to_sitk := λ t a, (reverse t.1, t.2);
  parse_interpolation := Ok;
  parse_degrees := λ d,
    match d with
    | DegNumber x =>
        if SpecFloat.SFltb x (SpecFloat.S754_zero false) then Raise ValueError
        else Ok (SpecFloat.SFopp x, x)
    | DegRange r => Ok r
    end;
|}.

Definition world0 : world := World ∅ ∅ 5%Z ([], []) [].

End Ieee.

(** ** Vocabulary of the statements *)

Section Vocabulary.
Context `{Externals}.

(** The paths whose image data was read, in order. *)
Definition reads (tr : list event) : list string :=
  omap (λ e, match e with EvReadImage p => Some p | _ => None end) tr.

(** File-system queries that do not read file contents. *)
Definition is_query (e : event) : bool :=
  match e with EvIsFile _ | EvIsDir _ => true | _ => false end.

(** [p.is_file() or p.is_dir()]: the second query is made only when the
    first answers no. *)
Definition path_exists (fs : filesystem) (p : string) : result bool :=
  match is_file fs p with
  | Ok true => Ok true
  | Ok false => is_dir fs p
  | Raise e => Raise e
  end.

Definition in_interval (r : num * num) (x : num) : Prop :=
  num_le r.1 x ∧ num_le x r.2.

(** An interval with its bounds in single precision. *)
Definition float32_interval (r : num * num) : num * num :=
  (float32 r.1, float32 r.2).

(** What torch documents of [uniform_]: a draw lies between the bounds,
    which for a FloatTensor are the bounds in single precision. *)
Definition uniform_contract : Prop :=
  ∀ g a b, num_le (float32 a) (float32 b) →
    in_interval (float32_interval (a, b)) (draw_uniform g a b).1.

(** [n] successive draws between [a] and [b], and the generator after
    them. *)
Fixpoint draws (n : nat) (g : rng) (a b : num) : list num * rng :=
  match n with
  | 0 => ([], g)
  | S n =>
      let (x, g1) := draw_uniform g a b in
      let (xs, g2) := draws n g1 a b in
      (x :: xs, g2)
  end.

(** The transform built from the scaling and rotation parameters. *)
Definition affine_composite (scaling : list num) (r0 r1 r2 : num)
  : sitk_transform :=
  CompositeTransform 3
    [ScaleTransform 3 (np_divide num_one <$> scaling);
     Euler3DTransform (np_radians r0) (np_radians r1) (np_radians r2)].

(** Contents of a tensor [t] after its volume [t[0]] went through
    [sitk.Resample] with transform [tr] and interpolation [i]. *)
Definition resampled (tr : sitk_transform) (i : Interpolation)
    (t : tensor) (affine : ndarray) : tensor :=
  tensor_setitem0 t
    (torch_from_numpy (np_transpose (sitk_GetArrayFromImage
      (sitk_Resample (nib_to_sitk (tensor_getitem0 t) affine) tr
         (interpolation_value i))))).

(** A value that is a dict with a ['type'], a four-dimensional
    single-channel tensor under [DATA] and an array under [AFFINE]:
    its type, the tensor reference, the tensor and the affine matrix. *)
Definition image_of (w : world) (v : value)
  : option (value * loc * tensor * ndarray) :=
  match v with
  | VDict l =>
      d ← dicts w !! l;
      ty ← dict_get "type" d;
      match dict_get DATA d, dict_get AFFINE d with
      | Some (VTensor tl), Some (VArray a) =>
          t ← tensors w !! tl;
          if bool_decide (length (tensor_shape t) = 4)
             && bool_decide (tensor_shape t !! 0 = Some 1)
          then Some (ty, tl, t, a) else None
      | _, _ => None
      end
  | _ => None
  end.

(** The fields of the dict a value refers to. *)
Definition fields_of (w : world) (v : value) : option (pydict value) :=
  match v with VDict l => dicts w !! l | _ => None end.

Definition well_formed_images (w : world) (vs : list value) : Prop :=
  Forall (λ v, is_image_dict (dicts w) v = true → is_Some (image_of w v)) vs.

(** The tensors the image dicts among [vs] refer to, one per occurrence. *)
Definition data_refs (w : world) (vs : list value) : list loc :=
  omap (λ v, if is_image_dict (dicts w) v
             then (λ e, e.1.1.2) <$> image_of w v else None) vs.

(** The interpolation the loop picks for an image dict of type [ty]. *)
Definition chosen (self : RandomAffine) (ty : value) : Interpolation :=
  if eq_LABEL ty then NEAREST else interpolation self.

Definition with_params (scaling rotation : list num) (sample : pydict value)
  : pydict value :=
  dict_set "random_rotation" (VFloats rotation)
    (dict_set "random_scaling" (VFloats scaling) sample).

(** The parameters a call of [apply_transform] in world [w] samples, and
    the sample once they are stored in it. *)
Definition sampled (self : RandomAffine) (w : world) : list num * list num :=
  match (get_params (scales self) (degrees self) (isotropic self) w).1 with
  | Ok params => params
  | Raise _ => ([], [])
  end.

Definition stored (self : RandomAffine) (sample : pydict value) (w : world)
  : pydict value :=
  with_params (sampled self w).1 (sampled self w).2 sample.

(** The parameters drawn with the generator in state [g]: three draws
    between the [scales] bounds, of which the first is kept three times
    when the transform is isotropic, then three draws between the
    [degrees] bounds; and the generator after the six draws. *)
Definition drawn_params (self : RandomAffine) (g : rng)
  : list num * list num * rng :=
  let (ss, g3) := draws 3 g (scales self).1 (scales self).2 in
  let (rs, g6) := draws 3 g3 (degrees self).1 (degrees self).2 in
  (if isotropic self then replicate 3 (nth 0 ss uninitialized) else ss,
   rs, g6).


End Vocabulary.

Section MoreVocabulary.
Context `{Externals}.

(** What [load] adds to the trace for one image. *)
Definition load_events (check_nans : bool) (fs : filesystem) (image : Image)
  : list event :=
  EvReadImage (Image_path image) ::
  (if check_nans
      && isnan_any (tensor_unsqueeze0 (read_image fs (Image_path image)).1)
   then [EvWarn (Image_path image)] else []).

(** The dict [__getitem__] builds for an image whose tensor is at [tl]. *)
Definition image_dict_for (fs : filesystem) (image : Image) (tl : loc)
  : pydict value :=
  dict_display [
    (DATA, VTensor tl);
    (AFFINE, VArray (read_image fs (Image_path image)).2);
    ("type", VStr (Image_type image));
    ("path", VStr (Image_path image));
    ("stem", VStr (get_stem (Image_path image)))].

(** A subject the constructor of [Subject] accepts. *)
Definition valid_subject (items : list pyobj) : Prop :=
  items ≠ [] ∧
  ∃ imgs, items = ObjImage <$> imgs ∧ NoDup (Image_name <$> imgs).

(** A valid index of a Python list of length [n]. *)
Definition valid_index (n : nat) (index : Z) : Prop :=
  (- Z.of_nat n ≤ index < Z.of_nat n)%Z.

(** The generator after the six draws of [get_params]. *)
Definition after_params (self : RandomAffine) (w : world) : world :=
  (get_params (scales self) (degrees self) (isotropic self) w).2.

End MoreVocabulary.

Section SaveVocabulary.
Context `{Writer}.

(** The volume and affine matrix [save_sample] writes for [key]: the entry
    of the sample under [key] must be a dict with a tensor under [DATA] and
    an array under [AFFINE]; the channel dimension is dropped. *)
Definition saved_volume (w : world) (sample : pydict value) (key : string)
  : option (tensor * ndarray) :=
  v ← dict_get key sample;
  d ← fields_of w v;
  match dict_get DATA d, dict_get AFFINE d with
  | Some (VTensor tl), Some (VArray affine) =>
      t ← tensors w !! tl; Some (tensor_getitem0 t, affine)
  | _, _ => None
  end.

(** The same for a tensor on which [[0]] is defined: it has a first
    dimension, and that dimension is not empty. *)
Definition written_volume (w : world) (sample : pydict value) (key : string)
  : option (tensor * ndarray) :=
  v ← dict_get key sample;
  d ← fields_of w v;
  match dict_get DATA d, dict_get AFFINE d with
  | Some (VTensor tl), Some (VArray affine) =>
      t ← tensors w !! tl;
      match tensor_shape t with
      | S _ :: _ => Some (tensor_getitem0 t, affine)
      | _ => None
      end
  | _, _ => None
  end.

(** Writing volumes to paths, one after the other. *)
Definition write_all (fs : filesystem)
    (items : list (string * (tensor * ndarray))) : filesystem :=
  foldl (λ fs item, write_image fs item.2.1 item.2.2 item.1) fs items.

End SaveVocabulary.

(** ** Python dicts *)

Section DictFacts.
Context {V : Type}.
Implicit Types (d : pydict V) (k : string) (v : V).

Lemma dict_get_set_eq k v d : dict_get k (dict_set k v d) = Some v.
Proof.
  induction d as [|[k' v'] r IH]; simpl.
  - by rewrite decide_True.
  - destruct (decide (k = k')) as [->|Hne]; simpl.
    + by rewrite decide_True.
    + by rewrite decide_False.
Qed.

Lemma dict_get_set_ne k k' v d :
  k ≠ k' → dict_get k' (dict_set k v d) = dict_get k' d.
Proof.
  intros Hne. induction d as [|[k0 v0] r IH]; simpl.
  - by rewrite decide_False.
  - destruct (decide (k = k0)) as [->|Hk]; simpl.
    + by rewrite !decide_False.
    + destruct (decide (k' = k0)); [done | apply IH].
Qed.

Lemma dict_set_id k v d : dict_get k d = Some v → dict_set k v d = d.
Proof.
  induction d as [|[k0 v0] r IH]; simpl; [done|].
  destruct (decide (k = k0)) as [->|Hk].
  - by intros [= ->].
  - intros Hg. by rewrite IH.
Qed.

Lemma dict_get_None k d : dict_get k d = None ↔ k ∉ dict_keys d.
Proof.
  unfold dict_keys. induction d as [|[k0 v0] r IH]; simpl.
  - split; [intros _; apply not_elem_of_nil | done].
  - destruct (decide (k = k0)) as [->|Hk].
    + split; [done | intros Hn; exfalso; apply Hn; left].
    + rewrite IH, not_elem_of_cons. tauto.
Qed.

Lemma dict_keys_set k v d :
  dict_keys (dict_set k v d) =
    if decide (k ∈ dict_keys d) then dict_keys d else dict_keys d ++ [k].
Proof.
  unfold dict_keys. induction d as [|[k0 v0] r IH].
  - destruct (decide (k ∈ ([] : pydict V).*1)) as [Hin|_]; [|done].
    by apply elem_of_nil in Hin.
  - cbn [dict_set]. destruct (decide (k = k0)) as [->|Hk].
    + rewrite decide_True by (cbn; left). done.
    + cbn [fmap list_fmap fst]. fold (fmap (M:=list) (@fst string V)).
      rewrite IH. destruct (decide (k ∈ r.*1)) as [Hin|Hin].
      * rewrite decide_True by (by right). done.
      * rewrite decide_False; [done|]. rewrite not_elem_of_cons. done.
Qed.

Lemma elem_of_dict_keys_set k k' v d :
  k' ∈ dict_keys (dict_set k v d) ↔ k' ∈ dict_keys d ∨ k' = k.
Proof.
  rewrite dict_keys_set. destruct (decide (k ∈ dict_keys d)) as [Hin|Hin].
  - split; [by left | by intros [?| ->]].
  - by rewrite elem_of_app, list_elem_of_singleton.
Qed.

Lemma dict_get_elem_of k v d : dict_get k d = Some v → v ∈ dict_values d.
Proof.
  unfold dict_values. induction d as [|[k0 v0] r IH]; simpl; [done|].
  destruct (decide (k = k0)).
  - intros [= ->]. left.
  - intros Hg. right. by apply IH.
Qed.

End DictFacts.

(** ** The monad *)

Section MonadFacts.
Context `{Types}.

Lemma bind_ok {A B} (m : M A) (k : A → M B) w a w1 :
  m w = (Ok a, w1) → bind m k w = k a w1.
Proof. unfold bind. by intros ->. Qed.

Lemma bind_raise {A B} (m : M A) (k : A → M B) w e w1 :
  m w = (Raise e, w1) → bind m k w = (Raise e, w1).
Proof. unfold bind. by intros ->. Qed.

Lemma bind_Ok_inv {A B} (m : M A) (k : A → M B) w b w' :
  bind m k w = (Ok b, w') → ∃ a w1, m w = (Ok a, w1) ∧ k a w1 = (Ok b, w').
Proof.
  unfold bind. destruct (m w) as [[a|e] w1]; [by eauto | done].
Qed.

Lemma set_tensors_same (w : world) : set_tensors w (tensors w) = w.
Proof. by destruct w. Qed.

Lemma set_tensors_twice (w : world) ts ts' :
  set_tensors (set_tensors w ts) ts' = set_tensors w ts'.
Proof. done. Qed.

Lemma set_dicts_same (w : world) : set_dicts w (dicts w) = w.
Proof. by destruct w. Qed.

End MonadFacts.

(** ** Image *)

Section ImageFacts.
Context `{Externals}.

Lemma reads_app tr tr' : reads (tr ++ tr') = reads tr ++ reads tr'.
Proof. unfold reads. apply omap_app. Qed.

(** What [_parse_path] returns and leaves behind, case by case. *)
Lemma Image__parse_path_cases self_name path w :
  Image__parse_path self_name path w =
    match Path_expanduser path with
    | Raise e => (Raise e, w)
    | Ok p =>
        match is_file (files w) p with
        | Raise e => (Raise e, log w (EvIsFile p))
        | Ok true => (Ok p, log w (EvIsFile p))
        | Ok false =>
            (match is_dir (files w) p with
             | Raise e => Raise e
             | Ok true => Ok p
             | Ok false => Raise FileNotFoundError
             end,
             log (log w (EvIsFile p)) (EvIsDir p))
        end
    end.
Proof.
  unfold Image__parse_path, bind, path_is_file, path_is_dir.
  destruct (Path_expanduser path) as [p|e]; simpl.
  - destruct (is_file (files w) p) as [[]|e]; simpl; [done| |done].
    by destruct (is_dir (files w) p) as [[]|e].
  - by destruct e.
Qed.

(** The constructor in terms of the three steps of [_parse_path]. *)
Lemma Image_init_cases name path type_ w :
  (Image_init name path type_ w).1 =
    match Path_expanduser path with
    | Raise e => Raise e
    | Ok p =>
        match path_exists (files w) p with
        | Raise e => Raise e
        | Ok true => Ok (mkImage name p type_)
        | Ok false => Raise FileNotFoundError
        end
    end.
Proof.
  unfold Image_init, bind, path_exists. rewrite Image__parse_path_cases.
  destruct (Path_expanduser path) as [p|e]; [|done].
  destruct (is_file (files w) p) as [[]|e]; [done| |done].
  by destruct (is_dir (files w) p) as [[]|e].
Qed.

(** The constructor only queries the file system. *)
Lemma Image_init_effects name path type_ w :
  reads (trace (Image_init name path type_ w).2) = reads (trace w) ∧
  tensors (Image_init name path type_ w).2 = tensors w ∧
  dicts (Image_init name path type_ w).2 = dicts w ∧
  files (Image_init name path type_ w).2 = files w.
Proof.
  unfold Image_init, bind. rewrite Image__parse_path_cases.
  destruct (Path_expanduser path) as [p|e]; [|done].
  destruct (is_file (files w) p) as [[]|e]; [| |].
  3: by cbn; rewrite reads_app, app_nil_r.
  1: by cbn; rewrite reads_app, app_nil_r.
  destruct (is_dir (files w) p) as [[]|e]; cbn.
  all: by rewrite !reads_app, !app_nil_r.
Qed.

(** C9, amended. Constructing an [Image] validates the path at once.
    TypeError when the argument cannot be made a path.  An error of
    [expanduser] (RuntimeError for the [~name] of a user whose home
    directory cannot be determined) or of the queries [is_file] and
    [is_dir] comes out as it is.  FileNotFoundError when the expanded path
    is neither a file nor a directory.  In the one remaining case the
    constructor returns the image holding the expanded path.  So the path
    of every image that was constructed existed in the file system of the
    constructing call. *)
Theorem Image_init_validates_path name path type_ w :
  (∀ e, Path path = Raise e →
     e = TypeError ∧ (Image_init name path type_ w).1 = Raise TypeError) ∧
  (∀ p e, Path path = Ok p → expanduser p = Raise e →
     (Image_init name path type_ w).1 = Raise e) ∧
  (∀ p p' e, Path path = Ok p → expanduser p = Ok p' →
     path_exists (files w) p' = Raise e →
     (Image_init name path type_ w).1 = Raise e) ∧
  (∀ p p', Path path = Ok p → expanduser p = Ok p' →
     path_exists (files w) p' = Ok false →
     (Image_init name path type_ w).1 = Raise FileNotFoundError) ∧
  (∀ p p', Path path = Ok p → expanduser p = Ok p' →
     path_exists (files w) p' = Ok true →
     (Image_init name path type_ w).1 = Ok (mkImage name p' type_)) ∧
  (∀ image, (Image_init name path type_ w).1 = Ok image →
     path_exists (files w) (Image_path image) = Ok true).
Proof.
  rewrite Image_init_cases. unfold Path_expanduser.
  destruct (Path path) as [p|e] eqn:HP.
  - destruct (expanduser p) as [p'|e] eqn:He.
    + destruct (path_exists (files w) p') as [[]|e] eqn:Hex.
      all: repeat (split; [intros; simplify_eq; congruence|]).
      all: intros image; intros; simplify_eq; done.
    + repeat (split; [intros; simplify_eq; congruence|]). done.
  - assert (e = TypeError) as -> by (destruct path; cbn in HP; by simplify_eq).
    repeat (split; [intros; simplify_eq; done|]). done.
Qed.

(** C4. An [Image] pairs a name, a path and a type and loads lazily.  The
    constructor reads no image data and touches no tensor; on a path that
    exists it returns the image holding the given name, the expanded path
    and the given type, and an image it returns is always that one.  The
    data tensor and the affine matrix come from [read_image] on the
    image's path when [load] is called, which is the one read [load]
    performs. *)
Theorem Image_lazy_loading name path type_ self check_nans w :
  (reads (trace (Image_init name path type_ w).2) = reads (trace w) ∧
   tensors (Image_init name path type_ w).2 = tensors w ∧
   (∀ p p', Path path = Ok p → expanduser p = Ok p' →
      path_exists (files w) p' = Ok true →
      (Image_init name path type_ w).1 = Ok (mkImage name p' type_)) ∧
   (∀ image, (Image_init name path type_ w).1 = Ok image →
      ∃ p p', Path path = Ok p ∧ expanduser p = Ok p' ∧
        path_exists (files w) p' = Ok true ∧
        image = mkImage name p' type_)) ∧
  (∃ l, (Image_load self check_nans w).1
          = Ok (l, (read_image (files w) (Image_path self)).2) ∧
        tensors w !! l = None ∧
        tensors (Image_load self check_nans w).2
          = <[l := tensor_unsqueeze0 (read_image (files w) (Image_path self)).1]>
              (tensors w) ∧
        reads (trace (Image_load self check_nans w).2)
          = reads (trace w) ++ [Image_path self]).
Proof.
  split.
  - destruct (Image_init_effects name path type_ w) as (Hr & Ht & _).
    split; [done|]. split; [done|].
    rewrite Image_init_cases. unfold Path_expanduser. split.
    + intros p p' -> -> ->. done.
    + intros image Hok. destruct (Path path) as [p|e]; [|done].
      destruct (expanduser p) as [p'|e] eqn:He; [|done].
      destruct (path_exists (files w) p') as [[]|e] eqn:Hex; try done.
      injection Hok as <-. by exists p, p'.
  - exists (fresh (dom (tensors w))).
    unfold Image_load, bind, read_image_io.
    destruct (read_image (files w) (Image_path self)) as [t a] eqn:Hr.
    assert (tensors w !! fresh (dom (tensors w)) = None) as Hfresh
      by (apply not_elem_of_dom, is_fresh).
    destruct (check_nans && isnan_any (tensor_unsqueeze0 t)); simpl;
      rewrite ?reads_app, ?app_nil_r; done.
Qed.

End ImageFacts.

(** ** Subject *)

Section SubjectFacts.
Context `{Externals}.

Lemma parse_images_loop_ok (imgs : list Image) (names : list string) :
  NoDup (Image_name <$> imgs) →
  (∀ n, n ∈ names → n ∉ Image_name <$> imgs) →
  parse_images_loop (ObjImage <$> imgs) names = Ok tt.
Proof.
  revert names. induction imgs as [|image imgs IH]; intros names Hnd Hdisj.
  - done.
  - cbn [fmap list_fmap] in *. cbn [parse_images_loop].
    apply NoDup_cons in Hnd as [Hnotin Hnd].
    rewrite decide_False; last first.
    { intros Hin. apply (Hdisj _ Hin). left. }
    apply IH; [done|].
    intros n [Hin | ->%list_elem_of_singleton]%elem_of_app; [|done].
    intros Hn. apply (Hdisj _ Hin). by right.
Qed.

Lemma parse_images_loop_dup (imgs : list Image) (names : list string) :
  ¬ (NoDup (Image_name <$> imgs) ∧
     ∀ n, n ∈ names → n ∉ Image_name <$> imgs) →
  parse_images_loop (ObjImage <$> imgs) names = Raise KeyError.
Proof.
  revert names. induction imgs as [|image imgs IH]; intros names Hbad.
  - destruct Hbad. split; [constructor|]. intros n _. apply not_elem_of_nil.
  - cbn [fmap list_fmap] in *. cbn [parse_images_loop].
    destruct (decide (Image_name image ∈ names)) as [Hin|Hnotin]; [done|].
    apply IH. intros [Hnd Hdisj]. apply Hbad. split.
    + apply NoDup_cons. split; [|done].
      apply Hdisj, elem_of_app. right. by apply list_elem_of_singleton.
    + intros n Hn [->|Hin]%elem_of_cons; [done|].
      apply (Hdisj n); [|done]. apply elem_of_app. by left.
Qed.

(** C3. [Subject] checks that image names are unique.  For every sequence
    of images: when two of them have the same name the constructor raises
    (a KeyError); when the sequence is not empty and the names are pairwise
    distinct, it returns a subject holding exactly those images, in order. *)
Theorem Subject_unique_names (imgs : list Image) (name : string) :
  (¬ NoDup (Image_name <$> imgs) →
     Subject_init (ObjImage <$> imgs) name = Raise KeyError) ∧
  (imgs ≠ [] → NoDup (Image_name <$> imgs) →
     ∃ s, Subject_init (ObjImage <$> imgs) name = Ok s ∧
          Subject_items s = ObjImage <$> imgs ∧ Subject_name s = name).
Proof.
  unfold Subject_init, Subject__parse_images. split.
  - intros Hdup. destruct imgs as [|image imgs].
    { destruct Hdup. constructor. }
    change (ObjImage <$> image :: imgs)
      with (ObjImage image :: (ObjImage <$> imgs)).
    cbv iota.
    change (ObjImage image :: (ObjImage <$> imgs))
      with (ObjImage <$> image :: imgs).
    rewrite parse_images_loop_dup; [done|]. by intros [Hnd _].
  - intros Hne Hnd. destruct imgs as [|image imgs]; [done|].
    change (ObjImage <$> image :: imgs)
      with (ObjImage image :: (ObjImage <$> imgs)).
    cbv iota.
    change (ObjImage image :: (ObjImage <$> imgs))
      with (ObjImage <$> image :: imgs).
    rewrite parse_images_loop_ok; [by eauto | done |].
    intros n Hn. by apply elem_of_nil in Hn.
Qed.

End SubjectFacts.

(** ** RandomAffine: parameters and transforms *)

Section ParamsFacts.
Context `{Externals}.

Lemma uniform__spec (t : list num) (a b : num) (w : world) :
  ∃ xs g, uniform_ t a b w = (Ok xs, set_generator w g) ∧
    length xs = length t ∧
    (uniform_contract → num_le (float32 a) (float32 b) →
       Forall (in_interval (float32_interval (a, b))) xs) ∧
    (t ≠ [] → head xs = Some (draw_uniform (generator w) a b).1).
Proof.
  revert w. induction t as [|y t IH]; intros w.
  - exists [], (generator w). unfold uniform_, ret.
    destruct w; repeat split; done.
  - cbn [uniform_]. unfold bind at 1. unfold draw at 1.
    destruct (draw_uniform (generator w) a b) as [x g] eqn:Hx.
    destruct (IH (set_generator w g)) as (xs & g' & Hrun & Hlen & Hin & _).
    exists (x :: xs), g'. unfold bind. rewrite Hrun. cbn.
    split; [done|]. split; [by rewrite Hlen|]. split; [|done].
    intros Hc Hab. constructor; [|by apply Hin].
    specialize (Hc (generator w) a b Hab). by rewrite Hx in Hc.
Qed.

(** A run of [get_params]: six draws, and only the generator moves. *)
Lemma get_params_run (scales degrees : num * num) (isotropic : bool)
    (w : world) :
  ∃ s0 s1 s2 r0 r1 r2 g,
    get_params scales degrees isotropic w
      = (Ok ([s0; s1; s2], [r0; r1; r2]), set_generator w g) ∧
    (uniform_contract → num_le (float32 scales.1) (float32 scales.2) →
       Forall (in_interval (float32_interval scales)) [s0; s1; s2]) ∧
    (uniform_contract → num_le (float32 degrees.1) (float32 degrees.2) →
       Forall (in_interval (float32_interval degrees)) [r0; r1; r2]) ∧
    (isotropic = true →
       s0 = (draw_uniform (generator w) scales.1 scales.2).1 ∧
       s1 = s0 ∧ s2 = s0).
Proof.
  unfold get_params.
  destruct (uniform__spec (torch_FloatTensor 3) scales.1 scales.2 w)
    as (ss & g & Hs & Hls & Hsin & Hfirst).
  destruct (uniform__spec (torch_FloatTensor 3) degrees.1 degrees.2
              (set_generator w g)) as (rs & g' & Hr & Hlr & Hrin & _).
  destruct ss as [|s0 [|s1 [|s2 [|]]]]; try done.
  destruct rs as [|r0 [|r1 [|r2 [|]]]]; try done.
  specialize (Hfirst ltac:(done)). injection Hfirst as Hfirst.
  rewrite (bind_ok _ _ _ _ _ Hs).
  destruct scales as [a b], degrees as [c d]. cbn [fst snd] in *.
  destruct isotropic.
  - exists s0, s0, s0, r0, r1, r2, g'.
    rewrite (bind_ok _ _ _ _ _ Hr). repeat split; try done.
    intros Hc Hab. specialize (Hsin Hc Hab).
    apply Forall_cons in Hsin as [Hs0 _].
    repeat (apply Forall_cons_2; [done|]). apply Forall_nil_2.
  - exists s0, s1, s2, r0, r1, r2, g'.
    rewrite (bind_ok _ _ _ _ _ Hr). repeat split; done.
Qed.

(** A run of [uniform_] is as many draws as the tensor has entries. *)
Lemma uniform__draws (t : list num) (a b : num) (w : world) :
  uniform_ t a b w
    = (Ok (draws (length t) (generator w) a b).1,
       set_generator w (draws (length t) (generator w) a b).2).
Proof.
  revert w. induction t as [|y t IH]; intros w.
  - cbn. unfold ret. by destruct w.
  - cbn [uniform_ length draws]. unfold bind at 1, draw at 1.
    destruct (draw_uniform (generator w) a b) as [x g1].
    unfold bind. rewrite IH. cbn [generator set_generator].
    by destruct (draws (length t) g1 a b) as [xs g2].
Qed.

Lemma draws_length (n : nat) (g : rng) (a b : num) :
  length (draws n g a b).1 = n.
Proof.
  revert g. induction n as [|n IH]; intros g; [done|].
  cbn [draws]. destruct (draw_uniform g a b) as [x g1].
  specialize (IH g1). destruct (draws n g1 a b) as [xs g2]. cbn in *.
  by rewrite IH.
Qed.

(** [get_params] is three draws between the [scales] bounds followed by
    three draws between the [degrees] bounds; [isotropic] keeps the first
    factor only. *)
Lemma get_params_draws (scales degrees : num * num) (isotropic : bool)
    (w : world) :
  ∃ s0 s1 s2 r0 r1 r2 g3 g6,
    draws 3 (generator w) scales.1 scales.2 = ([s0; s1; s2], g3) ∧
    draws 3 g3 degrees.1 degrees.2 = ([r0; r1; r2], g6) ∧
    get_params scales degrees isotropic w
      = (Ok (if isotropic then [s0; s0; s0] else [s0; s1; s2], [r0; r1; r2]),
         set_generator w g6).
Proof.
  unfold get_params, bind. rewrite uniform__draws.
  change (length (torch_FloatTensor 3)) with 3.
  pose proof (draws_length 3 (generator w) scales.1 scales.2) as Hls.
  destruct (draws 3 (generator w) scales.1 scales.2) as [ss g3] eqn:Hs.
  cbn [fst snd] in *. rewrite uniform__draws.
  change (length (torch_FloatTensor 3)) with 3. cbn [generator set_generator].
  pose proof (draws_length 3 g3 degrees.1 degrees.2) as Hlr.
  destruct (draws 3 g3 degrees.1 degrees.2) as [rs g6] eqn:Hr.
  cbn [fst snd] in *.
  destruct ss as [|s0 [|s1 [|s2 [|]]]]; try done.
  destruct rs as [|r0 [|r1 [|r2 [|]]]]; try done.
  exists s0, s1, s2, r0, r1, r2, g3, g6. split; [done|]. split; [done|].
  destruct w. by destruct isotropic.
Qed.



(** C5. The transform a volume is resampled through is a composite of
    exactly two transforms, added in this order: a three-dimensional scale
    transform whose factors are [1 / s] for the scaling parameters [s], and
    a three-dimensional Euler rotation whose angles are the rotation
    parameters converted from degrees to radians. *)
Theorem composed_transform (self : RandomAffine) (array : loc)
    (affine : ndarray) (scaling : list num) (r0 r1 r2 : num)
    (interp : Interpolation) (t : tensor) (w : world) :
  tensors w !! array = Some t →
  length (tensor_shape t) = 4 →
  tensor_shape t !! 0 = Some 1 →
  get_scaling_transform scaling
    = ScaleTransform 3 ((λ s, np_divide num_one s) <$> scaling) ∧
  get_rotation_transform [r0; r1; r2]
    = Ok (Euler3DTransform (np_radians r0) (np_radians r1) (np_radians r2)) ∧
  apply_affine_transform self array affine scaling [r0; r1; r2] interp w
    = (Ok array,
       set_tensors w (<[array :=
         resampled
           (CompositeTransform 3
              [ScaleTransform 3 ((λ s, np_divide num_one s) <$> scaling);
               Euler3DTransform (np_radians r0) (np_radians r1)
                 (np_radians r2)])
           interp t affine]> (tensors w))).
Proof.
  intros Ht Hdim Hch. split; [done|]. split; [done|].
  unfold apply_affine_transform, bind, read_tensor, assert.
  rewrite Ht, !bool_decide_eq_true_2 by done. done.
Qed.

End ParamsFacts.

(** ** RandomAffine: applying the transform *)

Section ApplyFacts.
Context `{Externals}.

Lemma image_of_Some w v ty tl t a :
  image_of w v = Some (ty, tl, t, a) →
  ∃ l d, v = VDict l ∧ dicts w !! l = Some d ∧
    dict_get "type" d = Some ty ∧
    dict_get DATA d = Some (VTensor tl) ∧
    dict_get AFFINE d = Some (VArray a) ∧
    tensors w !! tl = Some t ∧
    length (tensor_shape t) = 4 ∧ tensor_shape t !! 0 = Some 1.
Proof.
  unfold image_of. destruct v as [|l| | |]; try done.
  destruct (dicts w !! l) as [d|] eqn:Hd; [|done]. cbn.
  destruct (dict_get "type" d) as [ty'|] eqn:Hty; [|done]. cbn.
  destruct (dict_get DATA d) as [[tl'| | | |]|] eqn:Hdata; try done.
  destruct (dict_get AFFINE d) as [[| |a'| |]|] eqn:Haff; try done.
  destruct (tensors w !! tl') as [t'|] eqn:Ht; [|done]. cbn.
  destruct (bool_decide (length (tensor_shape t') = 4)) eqn:H4; [|done].
  destruct (bool_decide (tensor_shape t' !! 0 = Some 1)) eqn:H1; [|done].
  cbn. intros [= -> -> -> ->].
  apply bool_decide_eq_true_1 in H4, H1. exists l, d. by repeat split.
Qed.

Lemma image_of_stable w w' v ty tl t a :
  image_of w v = Some (ty, tl, t, a) →
  dicts w' = dicts w → tensors w' !! tl = Some t →
  image_of w' v = Some (ty, tl, t, a).
Proof.
  intros (l & d & -> & Hd & Hty & Hdata & Haff & Ht & H4 & H1)%image_of_Some
    Hds Hts.
  unfold image_of. rewrite Hds, Hd. cbn. rewrite Hty. cbn.
  rewrite Hdata, Haff, Hts. cbn.
  by rewrite !bool_decide_eq_true_2.
Qed.

Lemma apply_affine_transform_run (self : RandomAffine) array affine scaling
    r0 r1 r2 interp t w :
  tensors w !! array = Some t →
  length (tensor_shape t) = 4 →
  tensor_shape t !! 0 = Some 1 →
  apply_affine_transform self array affine scaling [r0; r1; r2] interp w
    = (Ok array,
       set_tensors w (<[array :=
         resampled (affine_composite scaling r0 r1 r2) interp t affine]>
         (tensors w))).
Proof.
  intros Ht Hdim Hch.
  unfold apply_affine_transform, bind, read_tensor, assert.
  rewrite Ht, !bool_decide_eq_true_2 by done. done.
Qed.

Lemma body_skip self scaling rotation v w :
  is_image_dict (dicts w) v = false →
  apply_transform_body self scaling rotation v w = (Ok tt, w).
Proof. intros Hno. unfold apply_transform_body, bind. by rewrite Hno. Qed.

Lemma body_image self scaling r0 r1 r2 v w ty tl t a :
  is_image_dict (dicts w) v = true →
  image_of w v = Some (ty, tl, t, a) →
  apply_transform_body self scaling [r0; r1; r2] v w
    = (Ok tt,
       set_tensors w (<[tl :=
         resampled (affine_composite scaling r0 r1 r2) (chosen self ty) t a]>
         (tensors w))).
Proof.
  intros His (l & d & -> & Hd & Hty & Hdata & Haff & Ht & H4 & H1)%image_of_Some.
  unfold apply_transform_body. unfold bind at 1. rewrite His. cbn [negb].
  unfold bind at 1. unfold value_getitem at 1. rewrite Hd, Hty.
  unfold bind at 1. unfold value_getitem at 1. rewrite Hd, Hdata.
  unfold bind at 1. unfold value_getitem at 1. rewrite Hd, Haff.
  unfold bind at 1. cbn [as_tensor ret].
  unfold bind at 1. cbn [as_array ret].
  unfold bind at 1.
  rewrite (apply_affine_transform_run _ _ _ _ _ _ _ _ t) by done.
  unfold value_setitem. cbn [dicts set_tensors].
  rewrite Hd, (dict_set_id _ _ _ Hdata), (insert_id _ _ _ Hd).
  unfold chosen. by destruct w.
Qed.

Lemma value_getitem_Ok v k w x w' :
  value_getitem v k w = (Ok x, w') →
  w' = w ∧ ∃ l d, v = VDict l ∧ dicts w !! l = Some d ∧ dict_get k d = Some x.
Proof.
  unfold value_getitem. intros Hg. repeat case_match; simplify_eq. eauto 10.
Qed.

Lemma apply_affine_transform_Ok (self : RandomAffine) array affine scaling
    rotation interp w r w' :
  apply_affine_transform self array affine scaling rotation interp w
    = (Ok r, w') →
  r = array ∧ ∃ x, w' = set_tensors w (<[array := x]> (tensors w)).
Proof.
  unfold apply_affine_transform, read_tensor, assert, lift, write_tensor, bind,
    ret, raise.
  intros Hr. repeat case_match; simplify_eq. eauto.
Qed.

(** A successful pass of the loop body changes no dict, and at most the
    tensor under [DATA] of the dict it was given. *)
Lemma body_frame self scaling rotation v w w' :
  apply_transform_body self scaling rotation v w = (Ok tt, w') →
  dicts w' = dicts w ∧ generator w' = generator w ∧
  files w' = files w ∧ trace w' = trace w ∧
  (tensors w' = tensors w ∨
   ∃ d tl x, is_image_dict (dicts w) v = true ∧ fields_of w v = Some d ∧
     dict_get DATA d = Some (VTensor tl) ∧
     tensors w' = <[tl := x]> (tensors w)).
Proof.
  unfold apply_transform_body. intros (b & w1 & Hb & Hrun)%bind_Ok_inv.
  injection Hb as <- <-.
  destruct (is_image_dict (dicts w) v) eqn:His; cbn [negb] in Hrun.
  2:{ injection Hrun as <-. by eauto 10. }
  apply bind_Ok_inv in Hrun as (ty & w1 & Hty & Hrun).
  apply bind_Ok_inv in Hrun as (data & w2 & Hdata & Hrun).
  apply bind_Ok_inv in Hrun as (aff & w3 & Haff & Hrun).
  apply bind_Ok_inv in Hrun as (tl & w4 & Htl & Hrun).
  apply bind_Ok_inv in Hrun as (a & w5 & Ha & Hrun).
  apply bind_Ok_inv in Hrun as (r & w6 & Hr & Hrun).
  apply value_getitem_Ok in Hty as (-> & l & d & -> & Hd & Hty).
  apply value_getitem_Ok in Hdata as (-> & l' & d' & [= <-] & Hd' & Hdata).
  apply value_getitem_Ok in Haff as (-> & l' & d'' & [= <-] & _ & _).
  rewrite Hd in Hd'. injection Hd' as <-.
  destruct data as [tl'| | | |]; try done. injection Htl as <- <-.
  destruct aff as [| |a'| |]; try done. injection Ha as <- <-.
  apply apply_affine_transform_Ok in Hr as (-> & x & ->).
  unfold value_setitem in Hrun. cbn [dicts set_tensors] in Hrun.
  rewrite Hd, (dict_set_id _ _ _ Hdata), (insert_id _ _ _ Hd) in Hrun.
  injection Hrun as <-. cbn.
  repeat split; try done. right. exists d, tl', x. by repeat split.
Qed.

Lemma image_of_update w v tl x ty tl' t a :
  image_of w v = Some (ty, tl', t, a) → tl' ≠ tl →
  image_of (set_tensors w (<[tl := x]> (tensors w))) v = Some (ty, tl', t, a).
Proof.
  intros Hv Hne. apply (image_of_stable w); [done | done |].
  cbn. rewrite lookup_insert_ne by done.
  by apply image_of_Some in Hv as (? & ? & _ & _ & _ & _ & _ & ? & _).
Qed.

Lemma data_refs_cons w v vs :
  data_refs w (v :: vs) =
    match (if is_image_dict (dicts w) v
           then (λ e, e.1.1.2) <$> image_of w v else None) with
    | Some tl => tl :: data_refs w vs
    | None => data_refs w vs
    end.
Proof. done. Qed.

Lemma images_stable w vs tl x :
  well_formed_images w vs → tl ∉ data_refs w vs →
  well_formed_images (set_tensors w (<[tl := x]> (tensors w))) vs ∧
  data_refs (set_tensors w (<[tl := x]> (tensors w))) vs = data_refs w vs ∧
  ∀ v, v ∈ vs → is_image_dict (dicts w) v = true →
    image_of (set_tensors w (<[tl := x]> (tensors w))) v = image_of w v.
Proof.
  unfold well_formed_images.
  induction vs as [|v vs IH]; intros Hwf Hnotin.
  - split; [done|]. split; [done|]. intros v Hv. by apply elem_of_nil in Hv.
  - apply Forall_cons in Hwf as [Hv Hwf]. rewrite data_refs_cons in Hnotin.
    rewrite !data_refs_cons. cbn [dicts set_tensors].
    destruct (is_image_dict (dicts w) v) eqn:His.
    + destruct (Hv eq_refl) as [[[[ty tl'] t] a] Himg].
      rewrite Himg in Hnotin |- *. cbn in Hnotin.
      apply not_elem_of_cons in Hnotin as [Hne Hnotin].
      destruct (IH Hwf Hnotin) as (IH1 & IH2 & IH3).
      assert (image_of (set_tensors w (<[tl := x]> (tensors w))) v
              = Some (ty, tl', t, a)) as Himg'
        by (apply image_of_update; [done | congruence]).
      rewrite Himg'. cbn. split; [|split].
      * apply Forall_cons_2; [by eauto | done].
      * by rewrite IH2.
      * intros v' [->|Hin]%elem_of_cons Hv'; [congruence | by apply IH3].
    + destruct (IH Hwf Hnotin) as (IH1 & IH2 & IH3). split; [|split].
      * apply Forall_cons_2; [|done]. cbn. congruence.
      * done.
      * intros v' [->|Hin]%elem_of_cons Hv'; [congruence | by apply IH3].
Qed.

(** The loop on image dicts that are well formed and share no tensor. *)
Lemma loop_run self scaling r0 r1 r2 vs w :
  well_formed_images w vs → NoDup (data_refs w vs) →
  ∃ ts', apply_transform_loop self scaling [r0; r1; r2] vs w
           = (Ok tt, set_tensors w ts') ∧
    (∀ l, l ∉ data_refs w vs → ts' !! l = tensors w !! l) ∧
    (∀ v ty tl t a, v ∈ vs → is_image_dict (dicts w) v = true →
       image_of w v = Some (ty, tl, t, a) →
       ts' !! tl = Some (resampled (affine_composite scaling r0 r1 r2)
                           (chosen self ty) t a)).
Proof.
  revert w. induction vs as [|v vs IH]; intros w Hwf Hnd.
  - exists (tensors w). cbn. unfold ret. rewrite set_tensors_same.
    split; [done|]. split; [done|]. intros v ???? Hv. by apply elem_of_nil in Hv.
  - cbn [apply_transform_loop]. pose proof Hwf as Hwf0.
    apply Forall_cons in Hwf as [Hv Hwf]. rewrite data_refs_cons in Hnd.
    destruct (is_image_dict (dicts w) v) eqn:His.
    + destruct (Hv eq_refl) as [[[[ty tl] t] a] Himg].
      rewrite Himg in Hnd. cbn in Hnd.
      apply NoDup_cons in Hnd as [Hnotin Hnd].
      rewrite (bind_ok _ _ _ _ _ (body_image _ _ _ _ _ _ _ _ _ _ _ His Himg)).
      set (x := resampled _ _ t a).
      destruct (images_stable w vs tl x Hwf Hnotin) as (Hwf1 & Hrefs & Hsame).
      destruct (IH (set_tensors w (<[tl := x]> (tensors w))) Hwf1)
        as (ts' & Hrun & Hframe & Hres); [by rewrite Hrefs|].
      exists ts'. rewrite Hrun, set_tensors_twice. split; [done|].
      rewrite Hrefs in Hframe. cbn [tensors set_tensors dicts] in Hframe, Hres.
      rewrite data_refs_cons, His, Himg. cbn. split.
      * intros l [Hne Hl]%not_elem_of_cons.
        rewrite Hframe by done. by rewrite lookup_insert_ne.
      * intros v' ty' tl' t' a' [->|Hin]%elem_of_cons Hv' Himg'.
        -- rewrite Himg in Himg'. injection Himg' as <- <- <- <-.
           rewrite Hframe by done. by rewrite lookup_insert_eq.
        -- apply (Hres v'); [done | done |]. by rewrite Hsame.
    + rewrite (bind_ok _ _ _ _ _ (body_skip _ _ _ _ _ His)).
      destruct (IH w Hwf Hnd) as (ts' & Hrun & Hframe & Hres).
      exists ts'. rewrite Hrun. split; [done|].
      rewrite data_refs_cons, His. split; [done|].
      intros v' ty' tl' t' a' [->|Hin]%elem_of_cons Hv' Himg';
        [congruence | by eapply Hres].
Qed.

(** Every successful run of the loop: no dict changes, and a tensor
    changes only if it is under [DATA] in an image dict of the list. *)
Lemma loop_frame self scaling rotation vs w w' :
  apply_transform_loop self scaling rotation vs w = (Ok tt, w') →
  dicts w' = dicts w ∧ generator w' = generator w ∧
  files w' = files w ∧ trace w' = trace w ∧
  ∀ l, (∀ v d, v ∈ vs → is_image_dict (dicts w) v = true →
          fields_of w v = Some d → dict_get DATA d ≠ Some (VTensor l)) →
       tensors w' !! l = tensors w !! l.
Proof.
  revert w. induction vs as [|v vs IH]; intros w Hrun.
  - injection Hrun as <-. by repeat split.
  - cbn [apply_transform_loop] in Hrun.
    apply bind_Ok_inv in Hrun as ([] & w1 & Hbody & Hrun).
    apply body_frame in Hbody as (Hd & Hg & Hf & Htr & Hts).
    apply IH in Hrun as (Hd' & Hg' & Hf' & Htr' & Hts').
    split; [congruence|]. split; [congruence|]. split; [congruence|].
    split; [congruence|]. intros l Hl.
    rewrite Hts'; last first.
    { intros v' d' Hin. rewrite Hd. intros His Hfd. apply (Hl v'); [by right|done|].
      destruct v'; try done. cbn in *. by rewrite <- Hd. }
    destruct Hts as [-> | (d & tl & x & His & Hfd & Hdata & ->)]; [done|].
    rewrite lookup_insert_ne; [done|]. intros ->.
    by apply (Hl v d); [left | | |].
Qed.

End ApplyFacts.

Section TransformFacts.
Context `{Externals}.

Lemma eq_LABEL_true (ty : value) : eq_LABEL ty = true ↔ ty = VStr LABEL.
Proof.
  unfold eq_LABEL. destruct ty; try (split; done).
  rewrite bool_decide_eq_true. split; congruence.
Qed.

Lemma sampled_run self w :
  ∃ s0 s1 s2 r0 r1 r2 g,
    get_params (scales self) (degrees self) (isotropic self) w
      = (Ok ([s0; s1; s2], [r0; r1; r2]), set_generator w g) ∧
    sampled self w = ([s0; s1; s2], [r0; r1; r2]).
Proof.
  destruct (get_params_run (scales self) (degrees self) (isotropic self) w)
    as (s0 & s1 & s2 & r0 & r1 & r2 & g & Hrun & _).
  exists s0, s1, s2, r0, r1, r2, g. split; [done|].
  unfold sampled. by rewrite Hrun.
Qed.

Lemma dict_keys_with_params scaling rotation (sample : pydict value) k :
  k ∈ dict_keys (with_params scaling rotation sample) ↔
  k ∈ dict_keys sample ∨ k = "random_scaling" ∨ k = "random_rotation".
Proof.
  unfold with_params. rewrite !elem_of_dict_keys_set. tauto.
Qed.

Lemma dict_get_with_params scaling rotation (sample : pydict value) :
  dict_get "random_scaling" (with_params scaling rotation sample)
    = Some (VFloats scaling) ∧
  dict_get "random_rotation" (with_params scaling rotation sample)
    = Some (VFloats rotation) ∧
  ∀ k, k ≠ "random_scaling" → k ≠ "random_rotation" →
    dict_get k (with_params scaling rotation sample) = dict_get k sample.
Proof.
  unfold with_params. split; [|split].
  - by rewrite dict_get_set_ne, dict_get_set_eq.
  - by rewrite dict_get_set_eq.
  - intros k H1 H2. by rewrite !dict_get_set_ne.
Qed.

(** Every successful call. *)
Lemma apply_transform_Ok self sample w sample' w' :
  RandomAffine_apply_transform self sample w = (Ok sample', w') →
  sample' = stored self sample w ∧
  dicts w' = dicts w ∧ files w' = files w ∧ trace w' = trace w ∧
  ∀ l, (∀ v d, v ∈ dict_values sample' → is_image_dict (dicts w) v = true →
          fields_of w v = Some d → dict_get DATA d ≠ Some (VTensor l)) →
       tensors w' !! l = tensors w !! l.
Proof.
  unfold RandomAffine_apply_transform.
  intros ([] & w0 & Hcheck & Hrun)%bind_Ok_inv.
  destruct (check_consistent_shape _ _ _); [|done]. injection Hcheck as <-.
  apply bind_Ok_inv in Hrun as ([scaling rotation] & w1 & Hp & Hrun).
  apply bind_Ok_inv in Hrun as ([] & w2 & Hloop & Hrun).
  injection Hrun as <- <-.
  destruct (sampled_run self w)
    as (s0 & s1 & s2 & r0 & r1 & r2 & g & Hp' & Hs).
  rewrite Hp' in Hp. injection Hp as <- <- <-.
  unfold stored. rewrite Hs. cbn [fst snd]. split; [done|].
  apply loop_frame in Hloop as (Hd & _ & Hf & Htr & Hts). cbn in *.
  by repeat split.
Qed.

(** A call on a sample whose image dicts are well formed and share no
    tensor. *)
Lemma apply_transform_run self sample w :
  check_consistent_shape (tensors w) (dicts w) sample = true →
  well_formed_images w (dict_values (stored self sample w)) →
  NoDup (data_refs w (dict_values (stored self sample w))) →
  ∃ r0 r1 r2 w',
    (get_params (scales self) (degrees self) (isotropic self) w).1
      = Ok (sampled self w) ∧
    (sampled self w).2 = [r0; r1; r2] ∧
    RandomAffine_apply_transform self sample w
      = (Ok (stored self sample w), w') ∧
    dicts w' = dicts w ∧
    ∀ v ty tl t a, v ∈ dict_values (stored self sample w) →
      is_image_dict (dicts w) v = true →
      image_of w v = Some (ty, tl, t, a) →
      tensors w' !! tl
        = Some (resampled (affine_composite (sampled self w).1 r0 r1 r2)
                  (chosen self ty) t a).
Proof.
  intros Hcheck Hwf Hnd.
  destruct (sampled_run self w)
    as (s0 & s1 & s2 & r0 & r1 & r2 & g & Hp & Hs).
  unfold stored in *. rewrite Hs in *. cbn [fst snd] in *.
  destruct (loop_run self [s0; s1; s2] r0 r1 r2 _ (set_generator w g) Hwf Hnd)
    as (ts' & Hloop & _ & Hres).
  exists r0, r1, r2, (set_tensors (set_generator w g) ts').
  split; [by rewrite Hp|]. split; [done|]. split.
  - unfold RandomAffine_apply_transform, bind at 1. rewrite Hcheck.
    rewrite (bind_ok _ _ _ _ _ Hp). cbv beta iota.
    fold (with_params [s0; s1; s2] [r0; r1; r2] sample).
    by rewrite (bind_ok _ _ _ _ _ Hloop).
  - split; [done|]. apply Hres.
Qed.

End TransformFacts.

(** ** Every call of [apply_transform] that returns *)

Section ReturningCalls.
Context `{Externals}.

Lemma get_params_drawn (self : RandomAffine) (w : world) :
  ∃ scaling r0 r1 r2 g,
    drawn_params self (generator w) = (scaling, [r0; r1; r2], g) ∧
    length scaling = 3 ∧
    get_params (scales self) (degrees self) (isotropic self) w
      = (Ok (scaling, [r0; r1; r2]), set_generator w g).
Proof.
  destruct (get_params_draws (scales self) (degrees self) (isotropic self) w)
    as (s0 & s1 & s2 & r0 & r1 & r2 & g3 & g6 & Hs & Hr & Hrun).
  exists (if isotropic self then [s0; s0; s0] else [s0; s1; s2]), r0, r1, r2, g6.
  unfold drawn_params. rewrite Hs, Hr. split; [done|].
  split; [by destruct (isotropic self)|done].
Qed.









Lemma apply_transform_Ok_loop self sample w sample' w' :
  RandomAffine_apply_transform self sample w = (Ok sample', w') →
  check_consistent_shape (tensors w) (dicts w) sample = true ∧
  ∃ scaling r0 r1 r2 g,
    drawn_params self (generator w) = (scaling, [r0; r1; r2], g) ∧
    length scaling = 3 ∧
    sample' = with_params scaling [r0; r1; r2] sample ∧
    apply_transform_loop self scaling [r0; r1; r2] (dict_values sample')
      (set_generator w g) = (Ok tt, w').
Proof.
  unfold RandomAffine_apply_transform.
  intros ([] & w0 & Hcheck & Hrun)%bind_Ok_inv.
  destruct (check_consistent_shape _ _ _); [|done]. injection Hcheck as <-.
  split; [done|].
  destruct (get_params_drawn self w)
    as (scaling & r0 & r1 & r2 & g & Hdrawn & Hlen & Hp).
  rewrite (bind_ok _ _ _ _ _ Hp) in Hrun. cbv beta iota in Hrun.
  apply bind_Ok_inv in Hrun as ([] & w2 & Hloop & Hrun).
  injection Hrun as <- <-.
  exists scaling, r0, r1, r2, g. by repeat split.
Qed.

End ReturningCalls.

Section ApplyTransform.
Context `{Externals}.


(** C7. An image dict whose ['type'] is [LABEL] is resampled with
    nearest-neighbour interpolation, whatever interpolation the transform
    was constructed with; any other image dict is resampled with the
    interpolation the constructor kept. *)
Theorem label_interpolation (scales0 : num * num) (degrees0 : degrees_arg)
    (isotropic0 : bool) (image_interpolation : Interpolation)
    (self : RandomAffine) (sample : pydict value) (w : world) :
  RandomAffine_init scales0 degrees0 isotropic0 image_interpolation = Ok self →
  check_consistent_shape (tensors w) (dicts w) sample = true →
  well_formed_images w (dict_values (stored self sample w)) →
  NoDup (data_refs w (dict_values (stored self sample w))) →
  parse_interpolation image_interpolation = Ok (interpolation self) ∧
  ∃ scaling r0 r1 r2 w',
    sampled self w = (scaling, [r0; r1; r2]) ∧
    RandomAffine_apply_transform self sample w
      = (Ok (stored self sample w), w') ∧
    ∀ k v ty tl t affine, dict_get k (stored self sample w) = Some v →
      is_image_dict (dicts w) v = true →
      image_of w v = Some (ty, tl, t, affine) →
      (ty = VStr LABEL →
         tensors w' !! tl
           = Some (resampled (affine_composite scaling r0 r1 r2)
                     NEAREST t affine)) ∧
      (ty ≠ VStr LABEL →
         tensors w' !! tl
           = Some (resampled (affine_composite scaling r0 r1 r2)
                     (interpolation self) t affine)).
Proof.
  intros Hinit Hcheck Hwf Hnd. split.
  - unfold RandomAffine_init in Hinit.
    destruct (parse_degrees degrees0); [|done].
    destruct (parse_interpolation image_interpolation); [|done].
    by injection Hinit as <-.
  - destruct (apply_transform_run self sample w Hcheck Hwf Hnd)
      as (r0 & r1 & r2 & w' & Hp & Hrot & Hrun & Hd & Hres).
    exists (sampled self w).1, r0, r1, r2, w'.
    split; [by rewrite <- Hrot; destruct (sampled self w)|].
    split; [done|]. intros k v ty tl t a Hk His Himg.
    apply dict_get_elem_of in Hk.
    rewrite (Hres v ty tl t a Hk His Himg). unfold chosen.
    destruct (eq_LABEL ty) eqn:Hty.
    + apply eq_LABEL_true in Hty. split; [done|]. by intros [].
    + split; [|done]. intros Heq. apply eq_LABEL_true in Heq. congruence.
Qed.

(** C8, amended. A call that returns changes no dict object, so every
    field of every image dict is kept ([DATA] still refers to the same
    tensor, whose contents are what changes); the keys of the returned
    sample are those of the given one together with ['random_scaling'] and
    ['random_rotation']; the entries under these two keys are the
    parameters just drawn from the generator, whatever the sample held
    there; every entry under another key, image or not, is the one given;
    and a tensor changes only if the [DATA] entry of an image dict of the
    sample refers to it. *)
Theorem apply_transform_frame (self : RandomAffine) (sample : pydict value)
    (w : world) (sample' : pydict value) (w' : world) :
  RandomAffine_apply_transform self sample w = (Ok sample', w') →
  dicts w' = dicts w ∧
  (∀ k, k ∈ dict_keys sample' ↔
        k ∈ dict_keys sample ∨ k = "random_scaling" ∨ k = "random_rotation") ∧
  (∃ scaling rotation g,
     drawn_params self (generator w) = (scaling, rotation, g) ∧
     dict_get "random_scaling" sample' = Some (VFloats scaling) ∧
     dict_get "random_rotation" sample' = Some (VFloats rotation)) ∧
  (∀ k, k ≠ "random_scaling" → k ≠ "random_rotation" →
        dict_get k sample' = dict_get k sample) ∧
  (∀ l, (∀ v d, v ∈ dict_values sample' → is_image_dict (dicts w) v = true →
           fields_of w v = Some d → dict_get DATA d ≠ Some (VTensor l)) →
        tensors w' !! l = tensors w !! l) ∧
  files w' = files w ∧ trace w' = trace w.
Proof.
  intros Hrun.
  pose proof (apply_transform_Ok_loop _ _ _ _ _ Hrun)
    as (_ & scaling & r0 & r1 & r2 & g & Hdrawn & _ & Hs & _).
  apply apply_transform_Ok in Hrun as (Hstored & Hd & Hf & Htr & Hts).
  split; [done|]. split; [rewrite Hs; apply dict_keys_with_params|].
  split.
  { exists scaling, [r0; r1; r2], g. split; [done|]. rewrite Hs.
    split; apply dict_get_with_params. }
  split; [rewrite Hs; apply dict_get_with_params|]. by repeat split.
Qed.

End ApplyTransform.

(** ** ImagesDataset *)

Section DatasetFacts.
Context `{Externals}.

Lemma dict_display_image (a b c d e : value) :
  NoDup [DATA; AFFINE; "type"; "path"; "stem"] →
  dict_display [(DATA, a); (AFFINE, b); ("type", c); ("path", d); ("stem", e)]
    = [(DATA, a); (AFFINE, b); ("type", c); ("path", d); ("stem", e)].
Proof.
  intros Hnd.
  apply NoDup_cons in Hnd as [Hdata Hnd]. apply NoDup_cons in Hnd as [Haff _].
  rewrite !not_elem_of_cons in Hdata. rewrite !not_elem_of_cons in Haff.
  destruct Hdata as (? & ? & ? & ? & _), Haff as (? & ? & ? & _).
  unfold dict_display. cbn [fold_left dict_set fst snd].
  repeat (cbn [dict_set]; rewrite decide_False by (congruence || done)). done.
Qed.

Lemma parse_images_loop_Ok (items : list pyobj) (names : list string) :
  parse_images_loop items names = Ok tt →
  ∃ imgs, items = ObjImage <$> imgs ∧ NoDup (Image_name <$> imgs).
Proof.
  revert names. induction items as [|item items IH]; intros names Hrun.
  - exists []. split; [done | constructor].
  - cbn [parse_images_loop] in Hrun. destruct item as [image|]; [|done].
    destruct (decide (Image_name image ∈ names)) as [|Hnotin]; [done|].
    destruct (IH _ Hrun) as (imgs & -> & Hnd).
    exists (image :: imgs). split; [done|]. cbn. apply NoDup_cons. split; [|done].
    intros Hin. apply list_elem_of_fmap in Hin as (image' & Hname & Hin).
    assert (¬ (NoDup (Image_name <$> imgs) ∧
               ∀ n, n ∈ names ++ [Image_name image] → n ∉ Image_name <$> imgs))
      as Hbad.
    { intros [_ Hdisj]. apply (Hdisj (Image_name image)).
      - apply elem_of_app. right. by apply list_elem_of_singleton.
      - rewrite Hname. by apply list_elem_of_fmap_2. }
    apply parse_images_loop_dup in Hbad. congruence.
Qed.

Lemma Subject_init_Ok (items : list pyobj) (name : string) (s : Subject) :
  Subject_init items name = Ok s →
  ∃ imgs, items = ObjImage <$> imgs ∧ NoDup (Image_name <$> imgs).
Proof.
  unfold Subject_init, Subject__parse_images. intros Hinit.
  destruct items as [|item items]; [done|].
  destruct (parse_images_loop (item :: items) []) as [[]|] eqn:Hloop; [|done].
  by apply parse_images_loop_Ok in Hloop.
Qed.

Lemma parse_subjects_loop_Ok (subjects_list : list (list pyobj)) subject :
  parse_subjects_loop subjects_list = Ok tt → subject ∈ subjects_list →
  ∃ s, Subject_init subject "" = Ok s.
Proof.
  induction subjects_list as [|s0 rest IH]; intros Hrun Hin.
  - by apply elem_of_nil in Hin.
  - cbn [parse_subjects_loop] in Hrun.
    destruct (Subject_init s0 "") as [s|] eqn:Hs0; [|done].
    apply elem_of_cons in Hin as [->|Hin]; [by eauto | by apply IH].
Qed.

(** A valid index and the position it selects. *)
Lemma list_getitem_valid {A} (l : list A) (index : Z) (x : A) :
  (- Z.of_nat (length l) ≤ index < Z.of_nat (length l))%Z →
  l !! Z.to_nat (index `mod` Z.of_nat (length l)) = Some x →
  list_getitem l index = Ok x.
Proof.
  intros Hvalid Hx. unfold list_getitem.
  destruct (index <? 0)%Z eqn:Hneg.
  - apply Z.ltb_lt in Hneg.
    assert (index `mod` Z.of_nat (length l) = index + Z.of_nat (length l))%Z
      as Hmod by (symmetry; apply (Z.mod_unique _ _ (-1)); lia).
    rewrite Hmod in Hx.
    destruct (index + Z.of_nat (length l) <? 0)%Z eqn:H2; [lia|].
    by rewrite Hx.
  - apply Z.ltb_ge in Hneg. rewrite Z.mod_small in Hx by lia.
    destruct (index <? 0)%Z eqn:H2; [lia|]. by rewrite Hx.
Qed.

(** One pass of the loop of [__getitem__]. *)
Lemma getitem_body_run self sample image w :
  NoDup [DATA; AFFINE; "type"; "path"; "stem"] →
  ∃ w1,
    getitem_body self sample (ObjImage image) w
      = (Ok (dict_set (Image_name image)
               (VDict (fresh (dom (dicts w)))) sample), w1) ∧
    files w1 = files w ∧ generator w1 = generator w ∧
    tensors w1 = <[fresh (dom (tensors w)) :=
                    tensor_unsqueeze0
                      (read_image (files w) (Image_path image)).1]> (tensors w) ∧
    dicts w1 = <[fresh (dom (dicts w)) :=
                  [(DATA, VTensor (fresh (dom (tensors w))));
                   (AFFINE, VArray (read_image (files w) (Image_path image)).2);
                   ("type", VStr (Image_type image));
                   ("path", VStr (Image_path image));
                   ("stem", VStr (get_stem (Image_path image)))]]> (dicts w).
Proof.
  intros Hkeys.
  unfold getitem_body, Image_load, bind, read_image_io, alloc_tensor,
    alloc_dict, warnings_warn, ret.
  destruct (read_image (files w) (Image_path image)) as [t a].
  cbv beta iota zeta.
  destruct (check_nans self && isnan_any (tensor_unsqueeze0 t));
    cbv beta iota zeta; rewrite dict_display_image by done;
    eexists; repeat split.
Qed.

(** The loop of [__getitem__] over images with distinct names. *)
Lemma getitem_loop_run self imgs sample w :
  NoDup [DATA; AFFINE; "type"; "path"; "stem"] →
  NoDup (Image_name <$> imgs) →
  (∀ k, k ∈ dict_keys sample → k ∉ Image_name <$> imgs) →
  ∃ sample' w',
    getitem_loop self (ObjImage <$> imgs) sample w = (Ok sample', w') ∧
    files w' = files w ∧ generator w' = generator w ∧
    tensors w ⊆ tensors w' ∧ dicts w ⊆ dicts w' ∧
    dict_keys sample' = dict_keys sample ++ (Image_name <$> imgs) ∧
    (∀ k, k ∉ Image_name <$> imgs → dict_get k sample' = dict_get k sample) ∧
    ∀ image, image ∈ imgs →
      ∃ dl tl, dict_get (Image_name image) sample' = Some (VDict dl) ∧
        dicts w !! dl = None ∧ tensors w !! tl = None ∧
        dicts w' !! dl
          = Some [(DATA, VTensor tl);
                  (AFFINE, VArray (read_image (files w) (Image_path image)).2);
                  ("type", VStr (Image_type image));
                  ("path", VStr (Image_path image));
                  ("stem", VStr (get_stem (Image_path image)))] ∧
        tensors w' !! tl
          = Some (tensor_unsqueeze0
                    (read_image (files w) (Image_path image)).1).
Proof.
  intros Hkeys. revert sample w.
  induction imgs as [|image imgs IH]; intros sample w Hnd Hdisj.
  - exists sample, w. cbn. unfold ret. rewrite app_nil_r.
    repeat split; try done. intros image Hin. by apply elem_of_nil in Hin.
  - cbn [fmap list_fmap] in *. apply NoDup_cons in Hnd as [Hfirst Hnd].
    cbn [getitem_loop].
    destruct (getitem_body_run self sample image w Hkeys)
      as (w1 & Hbody & Hf1 & Hg1 & Ht1 & Hd1).
    rewrite (bind_ok _ _ _ _ _ Hbody).
    set (dl := fresh (dom (dicts w))) in *.
    set (tl := fresh (dom (tensors w))) in *.
    assert (dicts w !! dl = None) as Hdl by apply not_elem_of_dom, is_fresh.
    assert (tensors w !! tl = None) as Htl by apply not_elem_of_dom, is_fresh.
    assert (Image_name image ∉ dict_keys sample) as Hnew.
    { intros Hin. apply (Hdisj _ Hin). left. }
    destruct (IH (dict_set (Image_name image) (VDict dl) sample) w1 Hnd)
      as (sample' & w' & Hrun & Hf & Hg & Hts & Hds & Hk & Hother & Himgs).
    { intros k [Hin | ->]%elem_of_dict_keys_set; [|done].
      intros Hk. apply (Hdisj _ Hin). by right. }
    exists sample', w'. split; [done|].
    assert (tensors w ⊆ tensors w1) as Hsub1
      by (rewrite Ht1; by apply insert_subseteq).
    assert (dicts w ⊆ dicts w1) as Hsub2
      by (rewrite Hd1; by apply insert_subseteq).
    split; [congruence|]. split; [congruence|].
    split; [by etrans|]. split; [by etrans|]. split; [|split].
    + rewrite Hk, dict_keys_set, decide_False by done.
      by rewrite <- app_assoc.
    + intros k [Hne Hk']%not_elem_of_cons.
      rewrite Hother by done. by rewrite dict_get_set_ne.
    + intros image' [->|Hin]%elem_of_cons.
      * exists dl, tl. rewrite Hother by done. rewrite dict_get_set_eq.
        split; [done|]. split; [done|]. split; [done|]. split.
        -- eapply lookup_weaken; last exact Hds.
           rewrite Hd1. apply lookup_insert_eq.
        -- eapply lookup_weaken; last exact Hts.
           rewrite Ht1. apply lookup_insert_eq.
      * destruct (Himgs image' Hin) as (dl' & tl' & Hget & Hnd' & Hnt' & Hd' & Ht').
        exists dl', tl'. rewrite Hf1 in Hd', Ht'. split; [done|].
        split; [by eapply lookup_weaken_None|].
        split; [by eapply lookup_weaken_None|]. done.
Qed.

(** C2. For a dataset that was constructed and a valid index [index] into
    its list of subjects (a negative index counts from the end, as Python
    lists do), [__getitem__] without a transform reads the images of
    subject [index] and returns a dict whose keys are the image names, in
    order, each mapped to a dict with the loaded tensor under [DATA], the
    affine matrix under [AFFINE], and the image's type, its path and its
    stem.  With a transform, given at construction or by [set_transform],
    the result is the result of the transform on that sample. *)
Theorem getitem_builds_sample (subjects0 : list (list pyobj))
    (transform0 : option (pydict value → M (pydict value)))
    (check_nans0 : bool) (ds : ImagesDataset) (index : Z)
    (subject : list pyobj) (w : world) :
  NoDup [DATA; AFFINE; "type"; "path"; "stem"] →
  ImagesDataset_init subjects0 transform0 check_nans0 = Ok ds →
  (- Z.of_nat (length subjects0) ≤ index < Z.of_nat (length subjects0))%Z →
  subjects0 !! Z.to_nat (index `mod` Z.of_nat (length subjects0))
    = Some subject →
  ∃ imgs sample w',
    subject = ObjImage <$> imgs ∧
    ImagesDataset_getitem (ImagesDataset_set_transform ds None) index w
      = (Ok sample, w') ∧
    dict_keys sample = Image_name <$> imgs ∧
    (∀ image, image ∈ imgs →
       ∃ dl tl, dict_get (Image_name image) sample = Some (VDict dl) ∧
         dicts w' !! dl
           = Some [(DATA, VTensor tl);
                   (AFFINE, VArray (read_image (files w) (Image_path image)).2);
                   ("type", VStr (Image_type image));
                   ("path", VStr (Image_path image));
                   ("stem", VStr (get_stem (Image_path image)))] ∧
         tensors w' !! tl
           = Some (tensor_unsqueeze0
                     (read_image (files w) (Image_path image)).1)) ∧
    (∀ f, ImagesDataset_getitem (ImagesDataset_set_transform ds (Some f))
            index w = f sample w') ∧
    ImagesDataset_getitem ds index w
      = match transform0 with
        | Some f => f sample w'
        | None => (Ok sample, w')
        end.
Proof.
  intros Hkeys Hinit Hpos Hsubj.
  unfold ImagesDataset_init, ImagesDataset__parse_subjects_list in Hinit.
  destruct subjects0 as [|s0 rest] eqn:Hs0; [done|]. rewrite <- Hs0 in *.
  destruct (parse_subjects_loop subjects0) as [[]|] eqn:Hloop; [|done].
  injection Hinit as <-.
  destruct (parse_subjects_loop_Ok subjects0 subject Hloop) as (s & Hs).
  { by eapply list_elem_of_lookup_2. }
  apply Subject_init_Ok in Hs as (imgs & -> & Hnd).
  destruct (getitem_loop_run
              (mkImagesDataset subjects0 None check_nans0) imgs [] w Hkeys Hnd)
    as (sample & w' & Hrun & _ & _ & _ & _ & Hk & _ & Himgs).
  { intros k Hin. by apply elem_of_nil in Hin. }
  exists imgs, sample, w'. split; [done|].
  pose proof (list_getitem_valid subjects0 index _ Hpos Hsubj) as Hget.
  assert (∀ tr, getitem_loop (mkImagesDataset subjects0 tr check_nans0)
                  (ObjImage <$> imgs) [] w = (Ok sample, w')) as Hany.
  { intros tr. rewrite <- Hrun. clear. generalize (@nil (string * value)).
    revert w. induction imgs as [|image imgs IH]; intros w sample; [done|].
    cbn [fmap list_fmap getitem_loop]. unfold bind.
    change (getitem_body (mkImagesDataset subjects0 tr check_nans0) sample
              (ObjImage image) w)
      with (getitem_body (mkImagesDataset subjects0 None check_nans0) sample
              (ObjImage image) w).
    destruct (getitem_body _ sample (ObjImage image) w) as [[s1|e] w1];
      [apply IH | done]. }
  split; [|split; [done|split; [|split]]].
  - unfold ImagesDataset_getitem, ImagesDataset_set_transform, bind, lift.
    cbn [subjects _transform check_nans]. by rewrite Hget, Hany.
  - intros image Hin.
    destruct (Himgs image Hin) as (dl & tl & ? & _ & _ & ? & ?). by eauto.
  - intros f.
    unfold ImagesDataset_getitem, ImagesDataset_set_transform, bind, lift.
    cbn [subjects _transform check_nans]. by rewrite Hget, Hany.
  - unfold ImagesDataset_getitem, bind, lift.
    cbn [subjects _transform check_nans]. rewrite Hget, Hany.
    by destruct transform0.
Qed.

End DatasetFacts.

(** ** More on [Image], [Subject] and the constructor of the dataset *)

Section MoreImages.
Context `{Externals}.

(** X1. [check_nans] changes nothing but the warning: [load] returns the
    same tensor reference and affine matrix and leaves the same store with
    and without it, and the trace gains the read of the image's path,
    followed by one warning exactly when [check_nans] is set and the
    loaded tensor holds a NaN. *)
Theorem Image_load_check_nans (self : Image) (check_nans : bool) (w : world) :
  (Image_load self check_nans w).1 = (Image_load self false w).1 ∧
  tensors (Image_load self check_nans w).2
    = tensors (Image_load self false w).2 ∧
  dicts (Image_load self check_nans w).2 = dicts w ∧
  files (Image_load self check_nans w).2 = files w ∧
  generator (Image_load self check_nans w).2 = generator w ∧
  trace (Image_load self check_nans w).2
    = trace w ++ load_events check_nans (files w) self.
Proof.
  unfold Image_load, load_events, bind, read_image_io, alloc_tensor,
    warnings_warn, ret.
  destruct (read_image (files w) (Image_path self)) as [t a]. cbn [fst snd].
  destruct check_nans, (isnan_any (tensor_unsqueeze0 t)); cbn;
    rewrite <- ?app_assoc; done.
Qed.

(** The loop of [_parse_images] past a prefix of images with new names. *)
Lemma parse_images_loop_prefix (imgs : list Image) (rest : list pyobj)
    (names : list string) :
  NoDup (Image_name <$> imgs) →
  (∀ n, n ∈ names → n ∉ Image_name <$> imgs) →
  parse_images_loop ((ObjImage <$> imgs) ++ rest) names
    = parse_images_loop rest (names ++ (Image_name <$> imgs)).
Proof.
  revert names. induction imgs as [|image imgs IH]; intros names Hnd Hdisj.
  - cbn. by rewrite app_nil_r.
  - cbn [fmap list_fmap app] in *. cbn [parse_images_loop].
    apply NoDup_cons in Hnd as [Hnotin Hnd].
    rewrite decide_False; last first.
    { intros Hin. apply (Hdisj _ Hin). left. }
    rewrite IH; [by rewrite <- app_assoc | done |].
    intros n [Hin | ->%list_elem_of_singleton]%elem_of_app; [|done].
    intros Hn. apply (Hdisj _ Hin). by right.
Qed.

(** When [Subject] accepts its arguments. *)
Lemma Subject_init_valid (items : list pyobj) (name : string) (s : Subject) :
  Subject_init items name = Ok s ↔
  valid_subject items ∧ s = mkSubject items name.
Proof.
  split.
  - intros Hinit. pose proof (Subject_init_Ok _ _ _ Hinit) as Himgs.
    unfold Subject_init, Subject__parse_images in Hinit.
    destruct items as [|item items]; [done|].
    destruct (parse_images_loop (item :: items) []); [|done].
    injection Hinit as <-. by repeat split.
  - intros [[Hne (imgs & -> & Hnd)] ->].
    unfold Subject_init, Subject__parse_images.
    destruct imgs as [|image imgs]; [done|].
    change (ObjImage <$> image :: imgs)
      with (ObjImage image :: (ObjImage <$> imgs)).
    cbv iota.
    change (ObjImage image :: (ObjImage <$> imgs))
      with (ObjImage <$> image :: imgs).
    rewrite parse_images_loop_ok; [done | done |].
    intros n Hn. by apply elem_of_nil in Hn.
Qed.

(** X2. [Subject( *items, name=name)] succeeds exactly when [items] is not
    empty, holds only images, and the image names are pairwise distinct;
    the subject then holds the items in order and the name. *)
Theorem Subject_init_succeeds_iff (items : list pyobj) (name : string)
    (s : Subject) :
  Subject_init items name = Ok s ↔
  valid_subject items ∧ s = mkSubject items name.
Proof. apply Subject_init_valid. Qed.

(** X3. Which error [Subject] raises: ValueError for no images; otherwise
    the first offending element decides, TypeError when it is not an image
    and KeyError when it is an image whose name was seen before. *)
Theorem Subject_init_errors (name : string) :
  Subject_init [] name = Raise ValueError ∧
  (∀ imgs rest, NoDup (Image_name <$> imgs) →
     Subject_init ((ObjImage <$> imgs) ++ ObjOther :: rest) name
       = Raise TypeError) ∧
  (∀ imgs image rest, NoDup (Image_name <$> imgs) →
     Image_name image ∈ Image_name <$> imgs →
     Subject_init ((ObjImage <$> imgs) ++ ObjImage image :: rest) name
       = Raise KeyError).
Proof.
  split; [done|].
  assert (∀ imgs (tail : list pyobj) e, NoDup (Image_name <$> imgs) →
            tail ≠ [] →
            parse_images_loop tail ([] ++ (Image_name <$> imgs)) = Raise e →
            Subject_init ((ObjImage <$> imgs) ++ tail) name = Raise e)
    as Hgen.
  { intros imgs tail e Hnd Htail Hloop.
    unfold Subject_init, Subject__parse_images.
    destruct ((ObjImage <$> imgs) ++ tail) as [|item items] eqn:Hitems.
    { apply app_eq_nil in Hitems as [_ ->]. done. }
    rewrite <- Hitems, parse_images_loop_prefix, Hloop; [done | done |].
    intros n Hn. by apply elem_of_nil in Hn. }
  split.
  - intros imgs rest Hnd. by apply Hgen.
  - intros imgs image rest Hnd Hin. apply Hgen; [done | done |].
    cbn. by rewrite decide_True.
Qed.

Lemma parse_subjects_loop_Forall (subjects_list : list (list pyobj)) :
  parse_subjects_loop subjects_list = Ok tt ↔
  Forall valid_subject subjects_list.
Proof.
  induction subjects_list as [|s0 rest IH]; cbn [parse_subjects_loop].
  - split; [by constructor | done].
  - rewrite Forall_cons, <- IH.
    destruct (Subject_init s0 "") as [s|e] eqn:Hs0.
    + apply Subject_init_valid in Hs0 as [Hvalid _]. tauto.
    + split; [done|]. intros [Hvalid _].
      assert (Subject_init s0 "" = Ok (mkSubject s0 "")) as Hok
        by by apply Subject_init_valid.
      congruence.
Qed.

(** When the constructor of [ImagesDataset] accepts its arguments. *)
Lemma ImagesDataset_init_valid (subjects0 : list (list pyobj))
    (transform : option (pydict value → M (pydict value)))
    (check_nans0 : bool) (ds : ImagesDataset) :
  ImagesDataset_init subjects0 transform check_nans0 = Ok ds ↔
  subjects0 ≠ [] ∧ Forall valid_subject subjects0 ∧
  ds = mkImagesDataset subjects0 transform check_nans0 ∧
  ImagesDataset_len ds = length subjects0.
Proof.
  unfold ImagesDataset_init, ImagesDataset__parse_subjects_list. split.
  - intros Hinit. destruct subjects0 as [|s0 rest]; [done|].
    cbv iota in Hinit.
    destruct (parse_subjects_loop (s0 :: rest)) as [[]|] eqn:Hloop; [|done].
    injection Hinit as <-. apply parse_subjects_loop_Forall in Hloop.
    by repeat split.
  - intros (Hne & Hall & -> & _).
    apply parse_subjects_loop_Forall in Hall.
    destruct subjects0 as [|s0 rest]; [done|]. cbv iota.
    by rewrite Hall.
Qed.

(** X4. The constructor of [ImagesDataset] succeeds exactly when the list
    of subjects is not empty and [Subject] accepts every one of them; the
    dataset then holds the subjects, the transform and the flag as given,
    and its length is the number of subjects. *)
Theorem ImagesDataset_init_succeeds_iff (subjects0 : list (list pyobj))
    (transform : option (pydict value → M (pydict value)))
    (check_nans0 : bool) (ds : ImagesDataset) :
  ImagesDataset_init subjects0 transform check_nans0 = Ok ds ↔
  subjects0 ≠ [] ∧ Forall valid_subject subjects0 ∧
  ds = mkImagesDataset subjects0 transform check_nans0 ∧
  ImagesDataset_len ds = length subjects0.
Proof. apply ImagesDataset_init_valid. Qed.

(** X5. The constructor of [ImagesDataset] raises ValueError for an empty
    list, and otherwise the error of the first subject that [Subject]
    rejects. *)
Theorem ImagesDataset_init_errors
    (transform : option (pydict value → M (pydict value)))
    (check_nans0 : bool) :
  ImagesDataset_init [] transform check_nans0 = Raise ValueError ∧
  ∀ accepted rejected rest e,
    Forall valid_subject accepted →
    Subject_init rejected "" = Raise e →
    ImagesDataset_init (accepted ++ rejected :: rest) transform check_nans0
      = Raise e.
Proof.
  split; [done|]. intros accepted rejected rest e Hall Hrej.
  unfold ImagesDataset_init, ImagesDataset__parse_subjects_list.
  assert (parse_subjects_loop (accepted ++ rejected :: rest) = Raise e)
    as Hloop.
  { induction Hall as [|s0 accepted Hs0 Hall IH]; cbn [app parse_subjects_loop].
    - by rewrite Hrej.
    - assert (Subject_init s0 "" = Ok (mkSubject s0 "")) as ->
        by by apply Subject_init_valid.
      done. }
  destruct (accepted ++ rejected :: rest) as [|s0 l] eqn:Hl.
  { by apply app_eq_nil in Hl as [_ ?]. }
  by rewrite Hloop.
Qed.

End MoreImages.

(** ** More on [__getitem__] *)

Section MoreGetitem.
Context `{Externals}.

Lemma dict_set_new {V} (k : string) (v : V) (d : pydict V) :
  k ∉ dict_keys d → dict_set k v d = d ++ [(k, v)].
Proof.
  unfold dict_keys. induction d as [|[k0 v0] r IH]; intros Hnew; [done|].
  cbn [fmap list_fmap fst] in Hnew.
  apply not_elem_of_cons in Hnew as [Hne Hnew].
  cbn [dict_set app]. rewrite decide_False by done. by rewrite IH.
Qed.

Lemma fmap_ObjImage_inj (imgs imgs' : list Image) :
  ObjImage <$> imgs = ObjImage <$> imgs' → imgs = imgs'.
Proof.
  revert imgs'. induction imgs as [|image imgs IH]; intros [|image' imgs'];
    try done.
  cbn. intros [= -> Heq]. f_equal. by apply IH.
Qed.

(** One pass of the loop of [__getitem__], in full. *)
Lemma getitem_body_effects self sample image w :
  getitem_body self sample (ObjImage image) w
    = (Ok (dict_set (Image_name image)
             (VDict (fresh (dom (dicts w)))) sample),
       World
         (<[fresh (dom (tensors w)) :=
              tensor_unsqueeze0 (read_image (files w) (Image_path image)).1]>
            (tensors w))
         (<[fresh (dom (dicts w)) :=
              image_dict_for (files w) image (fresh (dom (tensors w)))]>
            (dicts w))
         (generator w) (files w)
         (trace w ++ load_events (check_nans self) (files w) image)).
Proof.
  unfold getitem_body, Image_load, load_events, image_dict_for, bind,
    read_image_io, alloc_tensor, alloc_dict, warnings_warn, ret.
  destruct (read_image (files w) (Image_path image)) as [t a].
  cbv beta iota zeta. cbn [fst snd].
  destruct (check_nans self), (isnan_any (tensor_unsqueeze0 t));
    unfold set_dicts, set_tensors, log;
    cbn [tensors dicts generator files trace andb];
    rewrite <- ?app_assoc; done.
Qed.

(** The loop of [__getitem__] over images with distinct names: the dicts
    and tensors it allocates, and what it leaves in the trace. *)
Lemma getitem_loop_effects self imgs sample w :
  NoDup (Image_name <$> imgs) →
  (∀ k, k ∈ dict_keys sample → k ∉ Image_name <$> imgs) →
  ∃ dls tls w',
    getitem_loop self (ObjImage <$> imgs) sample w
      = (Ok (sample ++ zip (Image_name <$> imgs) (VDict <$> dls)), w') ∧
    length dls = length imgs ∧ length tls = length imgs ∧
    NoDup dls ∧ NoDup tls ∧
    (∀ dl, dl ∈ dls → dicts w !! dl = None) ∧
    (∀ tl, tl ∈ tls → tensors w !! tl = None) ∧
    files w' = files w ∧ generator w' = generator w ∧
    tensors w ⊆ tensors w' ∧ dicts w ⊆ dicts w' ∧
    trace w' = trace w
      ++ concat (load_events (check_nans self) (files w) <$> imgs) ∧
    ∀ i image dl tl,
      imgs !! i = Some image → dls !! i = Some dl → tls !! i = Some tl →
      dicts w' !! dl = Some (image_dict_for (files w) image tl) ∧
      tensors w' !! tl
        = Some (tensor_unsqueeze0 (read_image (files w) (Image_path image)).1).
Proof.
  revert sample w.
  induction imgs as [|image imgs IH]; intros sample w Hnd Hdisj.
  - exists [], [], w. cbn. unfold ret. rewrite !app_nil_r.
    repeat split; try done; try constructor.
    all: intros ? Hin; by apply elem_of_nil in Hin.
  - cbn [fmap list_fmap] in *. apply NoDup_cons in Hnd as [Hfirst Hnd].
    cbn [getitem_loop].
    rewrite (bind_ok _ _ _ _ _ (getitem_body_effects self sample image w)).
    set (dl := fresh (dom (dicts w))).
    set (tl := fresh (dom (tensors w))).
    set (w1 := World _ _ _ _ _).
    assert (dicts w !! dl = None) as Hdl by apply not_elem_of_dom, is_fresh.
    assert (tensors w !! tl = None) as Htl by apply not_elem_of_dom, is_fresh.
    assert (Image_name image ∉ dict_keys sample) as Hnew.
    { intros Hin. apply (Hdisj _ Hin). left. }
    destruct (IH (dict_set (Image_name image) (VDict dl) sample) w1 Hnd)
      as (dls & tls & w' & Hrun & Hld & Hlt & Hnd_d & Hnd_t & Hfresh_d
          & Hfresh_t & Hf & Hg & Hts & Hds & Htr & Hat).
    { intros k [Hin | ->]%elem_of_dict_keys_set; [|done].
      intros Hk. apply (Hdisj _ Hin). by right. }
    assert (tensors w ⊆ tensors w1) as Hsub1 by by apply insert_subseteq.
    assert (dicts w ⊆ dicts w1) as Hsub2 by by apply insert_subseteq.
    exists (dl :: dls), (tl :: tls), w'.
    split. { rewrite Hrun, dict_set_new by done. by rewrite <- app_assoc. }
    split; [cbn; by rewrite Hld|]. split; [cbn; by rewrite Hlt|].
    split.
    { apply NoDup_cons. split; [|done]. intros Hin.
      apply Hfresh_d in Hin. cbn in Hin. by rewrite lookup_insert_eq in Hin. }
    split.
    { apply NoDup_cons. split; [|done]. intros Hin.
      apply Hfresh_t in Hin. cbn in Hin. by rewrite lookup_insert_eq in Hin. }
    split.
    { intros dl' [->|Hin]%elem_of_cons; [done|].
      eapply lookup_weaken_None; [by apply Hfresh_d | done]. }
    split.
    { intros tl' [->|Hin]%elem_of_cons; [done|].
      eapply lookup_weaken_None; [by apply Hfresh_t | done]. }
    split; [done|]. split; [done|].
    split; [by etrans|]. split; [by etrans|].
    split. { rewrite Htr. cbn. by rewrite <- app_assoc. }
    intros i image' dl' tl' Hi Hdl' Htl'. destruct i as [|i].
    + cbn in Hi, Hdl', Htl'. injection Hi as <-. injection Hdl' as <-.
      injection Htl' as <-. split.
      * eapply lookup_weaken; last exact Hds. apply lookup_insert_eq.
      * eapply lookup_weaken; last exact Hts. apply lookup_insert_eq.
    + by apply (Hat i).
Qed.

(** X6. For a dataset constructed without a transform, [__getitem__]
    raises IndexError exactly when the index is outside
    [-len(dataset), len(dataset))], and then nothing was read or
    allocated. *)
Theorem getitem_index_error (subjects0 : list (list pyobj))
    (check_nans0 : bool) (ds : ImagesDataset) (index : Z) (w : world) :
  ImagesDataset_init subjects0 None check_nans0 = Ok ds →
  ((ImagesDataset_getitem ds index w).1 = Raise IndexError ↔
   ¬ valid_index (ImagesDataset_len ds) index) ∧
  (¬ valid_index (ImagesDataset_len ds) index →
   (ImagesDataset_getitem ds index w).2 = w).
Proof.
  intros (Hne & Hall & -> & _)%ImagesDataset_init_valid.
  unfold valid_index, ImagesDataset_len, ImagesDataset_getitem, bind, lift.
  cbn [subjects _transform check_nans].
  assert (¬ (- Z.of_nat (length subjects0) ≤ index
             < Z.of_nat (length subjects0))%Z →
          list_getitem subjects0 index = Raise IndexError) as Hout.
  { intros Hbad. unfold list_getitem.
    destruct (index <? 0)%Z eqn:Hneg.
    - apply Z.ltb_lt in Hneg.
      destruct (index + Z.of_nat (length subjects0) <? 0)%Z eqn:H2; [done|].
      apply Z.ltb_ge in H2. lia.
    - apply Z.ltb_ge in Hneg. destruct (index <? 0)%Z eqn:H2; [done|].
      rewrite lookup_ge_None_2; [done | lia]. }
  split; [split|].
  - intros Hraise Hvalid.
    destruct (lookup_lt_is_Some_2 subjects0
                (Z.to_nat (index `mod` Z.of_nat (length subjects0))))
      as [subject Hsubj].
    { pose proof (Z.mod_pos_bound index (Z.of_nat (length subjects0))). lia. }
    rewrite (list_getitem_valid _ _ _ Hvalid Hsubj) in Hraise.
    rewrite Forall_forall in Hall.
    destruct (Hall subject) as [_ (imgs & -> & Hnd)].
    { by eapply list_elem_of_lookup_2. }
    destruct (getitem_loop_effects
                (mkImagesDataset subjects0 None check_nans0) imgs [] w Hnd)
      as (dls & tls & w' & Hrun & _).
    { intros k Hin. by apply elem_of_nil in Hin. }
    by rewrite Hrun in Hraise.
  - intros Hbad. by rewrite Hout.
  - intros Hbad. by rewrite Hout.
Qed.

(** X7. What [__getitem__] does besides building the sample, for a
    constructed dataset without transform and a valid index: it reads the
    images of the subject once each, in order, warning after a read when
    [check_nans] is set and the tensor holds a NaN; it keeps every tensor
    and dict that existed, and leaves the generator and the file system
    alone. *)
Theorem getitem_effects (subjects0 : list (list pyobj)) (check_nans0 : bool)
    (ds : ImagesDataset) (index : Z) (imgs : list Image) (w : world) :
  ImagesDataset_init subjects0 None check_nans0 = Ok ds →
  valid_index (length subjects0) index →
  subjects0 !! Z.to_nat (index `mod` Z.of_nat (length subjects0))
    = Some (ObjImage <$> imgs) →
  trace (ImagesDataset_getitem ds index w).2
    = trace w ++ concat (load_events check_nans0 (files w) <$> imgs) ∧
  reads (trace (ImagesDataset_getitem ds index w).2)
    = reads (trace w) ++ (Image_path <$> imgs) ∧
  tensors w ⊆ tensors (ImagesDataset_getitem ds index w).2 ∧
  dicts w ⊆ dicts (ImagesDataset_getitem ds index w).2 ∧
  generator (ImagesDataset_getitem ds index w).2 = generator w ∧
  files (ImagesDataset_getitem ds index w).2 = files w.
Proof.
  intros (Hne & Hall & -> & _)%ImagesDataset_init_valid Hvalid Hsubj.
  unfold ImagesDataset_getitem, bind, lift.
  cbn [subjects _transform check_nans].
  rewrite (list_getitem_valid _ _ _ Hvalid Hsubj).
  rewrite Forall_forall in Hall.
  destruct (Hall (ObjImage <$> imgs)) as [_ (imgs' & Heq & Hnd)].
  { by eapply list_elem_of_lookup_2. }
  apply fmap_ObjImage_inj in Heq as <-.
  destruct (getitem_loop_effects
              (mkImagesDataset subjects0 None check_nans0) imgs [] w Hnd)
    as (dls & tls & w' & Hrun & _ & _ & _ & _ & _ & _ & Hf & Hg & Hts & Hds
        & Htr & _).
  { intros k Hin. by apply elem_of_nil in Hin. }
  rewrite Hrun. unfold ret. cbn [fst snd check_nans] in *.
  split; [done|]. split; [|done].
  rewrite Htr, reads_app. f_equal. clear.
  induction imgs as [|image imgs IH]; [done|].
  cbn [fmap list_fmap concat]. rewrite reads_app, IH.
  unfold load_events. by destruct (_ && _).
Qed.

(** X8. The sample [__getitem__] builds shares nothing: its entries, in
    the order of the images, refer to pairwise distinct new dicts, whose
    [DATA] entries refer to pairwise distinct new tensors. *)
Theorem getitem_no_sharing (subjects0 : list (list pyobj))
    (check_nans0 : bool) (ds : ImagesDataset) (index : Z)
    (imgs : list Image) (w : world) :
  ImagesDataset_init subjects0 None check_nans0 = Ok ds →
  valid_index (length subjects0) index →
  subjects0 !! Z.to_nat (index `mod` Z.of_nat (length subjects0))
    = Some (ObjImage <$> imgs) →
  ∃ dls tls,
    (ImagesDataset_getitem ds index w).1
      = Ok (zip (Image_name <$> imgs) (VDict <$> dls)) ∧
    length dls = length imgs ∧ length tls = length imgs ∧
    NoDup dls ∧ NoDup tls ∧
    (∀ dl, dl ∈ dls → dicts w !! dl = None) ∧
    (∀ tl, tl ∈ tls → tensors w !! tl = None) ∧
    ∀ i image dl tl,
      imgs !! i = Some image → dls !! i = Some dl → tls !! i = Some tl →
      dicts (ImagesDataset_getitem ds index w).2 !! dl
        = Some (image_dict_for (files w) image tl) ∧
      tensors (ImagesDataset_getitem ds index w).2 !! tl
        = Some (tensor_unsqueeze0 (read_image (files w) (Image_path image)).1).
Proof.
  intros (Hne & Hall & -> & _)%ImagesDataset_init_valid Hvalid Hsubj.
  unfold ImagesDataset_getitem, bind, lift.
  cbn [subjects _transform check_nans].
  rewrite (list_getitem_valid _ _ _ Hvalid Hsubj).
  rewrite Forall_forall in Hall.
  destruct (Hall (ObjImage <$> imgs)) as [_ (imgs' & Heq & Hnd)].
  { by eapply list_elem_of_lookup_2. }
  apply fmap_ObjImage_inj in Heq as <-.
  destruct (getitem_loop_effects
              (mkImagesDataset subjects0 None check_nans0) imgs [] w Hnd)
    as (dls & tls & w' & Hrun & Hld & Hlt & Hnd_d & Hnd_t & Hfd & Hft & _ & _
        & _ & _ & _ & Hat).
  { intros k Hin. by apply elem_of_nil in Hin. }
  rewrite Hrun. unfold ret. exists dls, tls. cbn [fst snd app].
  repeat (split; [done|]). done.
Qed.

End MoreGetitem.

(** ** [save_sample] *)

Section SaveSampleFacts.
Context `{Writer}.

Lemma dict_getitem_cases {V} (d : pydict V) (k : string) (w : world) :
  dict_getitem d k w
    = match dict_get k d with
      | Some v => (Ok v, w)
      | None => (Raise KeyError, w)
      end.
Proof. unfold dict_getitem. by destruct (dict_get k d). Qed.

Ltac settle_case :=
  split;
    [done
    | intros Hnone; first [done | eexists; split; [done | by intros]]].

(** One pass of the loop of [save_sample]. *)
Lemma save_sample_body_cases sample key output_path w :
  save_sample_body sample key output_path w
    = match saved_volume w sample key with
      | Some (t, affine) =>
          (Ok tt, set_files w (write_image (files w) t affine output_path))
      | None => ((save_sample_body sample key output_path w).1, w)
      end ∧
  (saved_volume w sample key = None →
   ∃ e, (save_sample_body sample key output_path w).1 = Raise e ∧
        (dict_get key sample = None → e = KeyError)).
Proof.
  unfold save_sample_body, saved_volume, fields_of, bind, value_getitem,
    as_tensor, as_array, read_tensor, write_image_io, dict_getitem, ret, raise.
  destruct (dict_get key sample) as [v|]; cbn; [|by settle_case].
  destruct v as [|l| | |]; cbn; try by settle_case.
  destruct (dicts w !! l) as [d|] eqn:Hd; cbn; [|by settle_case].
  destruct (dict_get DATA d) as [[tl| | | |]|]; cbn; try by settle_case.
  destruct (tensors w !! tl) as [t|] eqn:Ht; cbn; rewrite ?Hd; cbn.
  - destruct (dict_get AFFINE d) as [[| |a| |]|]; cbn; by settle_case.
  - destruct (dict_get AFFINE d) as [[| |a| |]|]; cbn; by settle_case.
Qed.

Lemma saved_volume_set_files w fs sample key :
  saved_volume (set_files w fs) sample key = saved_volume w sample key.
Proof. done. Qed.

Lemma save_sample_loop_app sample items items' w :
  save_sample_loop sample (items ++ items') w
    = match save_sample_loop sample items w with
      | (Ok _, w1) => save_sample_loop sample items' w1
      | (Raise e, w1) => (Raise e, w1)
      end.
Proof.
  revert w. induction items as [|[k p] items IH]; intros w; [done|].
  cbn [app save_sample_loop]. unfold bind.
  destruct (save_sample_body sample k p w) as [[[]|e] w1]; [apply IH | done].
Qed.

(** The loop on keys that all name a volume. *)
Lemma save_sample_loop_run sample items vols w :
  Forall2 (λ kp va, saved_volume w sample kp.1 = Some va) items vols →
  save_sample_loop sample items w
    = (Ok tt, set_files w (write_all (files w) (zip items.*2 vols))).
Proof.
  intros Hall. revert w Hall.
  induction items as [|[k p] items IH] in vols |- *; intros w Hall.
  - apply Forall2_nil_inv_l in Hall as ->. by destruct w.
  - apply Forall2_cons_inv_l in Hall as ([t a] & vols' & Hv & Hall & ->).
    cbn [save_sample_loop fst] in *. unfold bind.
    destruct (save_sample_body_cases sample k p w) as [-> _]. rewrite Hv.
    rewrite (IH vols'); [done|].
    eapply Forall2_impl; [exact Hall|]. intros kp va. by intros <-.
Qed.

(** X9. [save_sample] changes no tensor and no dict, draws no random
    number and reads nothing; and when it returns, every key of the output
    paths named an entry of the sample that is a dict with a tensor under
    [DATA] and an array under [AFFINE]. *)
Theorem save_sample_frame (sample : pydict value)
    (output_paths_dict : pydict string) (w : world) :
  tensors (ImagesDataset_save_sample sample output_paths_dict w).2
    = tensors w ∧
  dicts (ImagesDataset_save_sample sample output_paths_dict w).2 = dicts w ∧
  generator (ImagesDataset_save_sample sample output_paths_dict w).2
    = generator w ∧
  trace (ImagesDataset_save_sample sample output_paths_dict w).2 = trace w ∧
  ((ImagesDataset_save_sample sample output_paths_dict w).1 = Ok tt →
   ∀ key, key ∈ dict_keys output_paths_dict →
     key ∈ dict_keys sample ∧ is_Some (saved_volume w sample key)).
Proof.
  unfold ImagesDataset_save_sample, dict_keys. revert w.
  induction output_paths_dict as [|[k p] items IH]; intros w.
  - split; [done|]. split; [done|]. split; [done|]. split; [done|].
    intros _ key Hin. by apply elem_of_nil in Hin.
  - cbn [save_sample_loop]. unfold bind.
    destruct (save_sample_body_cases sample k p w) as [Hbody Hnone].
    rewrite Hbody.
    destruct (saved_volume w sample k) as [[t a]|] eqn:Hv.
    + destruct (IH (set_files w (write_image (files w) t a p)))
        as (Ht & Hd & Hg & Htr & Hkeys).
      split; [done|]. split; [done|]. split; [done|]. split; [done|].
      intros Hok key [->|Hin]%elem_of_cons.
      * split; [|by eauto].
        unfold saved_volume in Hv.
        destruct (dict_get k sample) as [v|] eqn:Hget; [|done].
        destruct (decide (k ∈ sample.*1)) as [|Hnot]; [done|].
        apply (dict_get_None k sample) in Hnot. congruence.
      * by apply Hkeys.
    + destruct (Hnone eq_refl) as (e & -> & _). by repeat split.
Qed.

Lemma written_volume_saved w sample key va :
  written_volume w sample key = Some va → saved_volume w sample key = Some va.
Proof.
  unfold written_volume, saved_volume.
  destruct (dict_get key sample) as [v|]; [|done]. cbn.
  destruct (fields_of w v) as [d|]; [|done]. cbn.
  destruct (dict_get DATA d) as [[tl| | | |]|]; try done.
  destruct (dict_get AFFINE d) as [[| |a| |]|]; try done.
  destruct (tensors w !! tl) as [t|]; [|done]. cbn.
  by destruct (tensor_shape t) as [|[|n] shape].
Qed.

Lemma written_volumes_saved w sample (items : pydict string) vols :
  Forall2 (λ kp va, written_volume w sample kp.1 = Some va) items vols →
  Forall2 (λ kp va, saved_volume w sample kp.1 = Some va) items vols.
Proof.
  intros Hall. eapply Forall2_impl; [exact Hall|].
  intros kp va. apply written_volume_saved.
Qed.

(** X10. The first key of the output paths that the sample does not hold
    makes [save_sample] raise KeyError, after the volumes of the keys
    before it were written; the tensors of these volumes have a first
    dimension that is not empty. *)
Theorem save_sample_missing_key (sample : pydict value)
    (before after : pydict string) (key output_path : string)
    (vols : list (tensor * ndarray)) (w : world) :
  NoDup (dict_keys (before ++ (key, output_path) :: after)) →
  Forall2 (λ kp va, written_volume w sample kp.1 = Some va) before vols →
  dict_get key sample = None →
  ImagesDataset_save_sample sample (before ++ (key, output_path) :: after) w
    = (Raise KeyError,
       set_files w (write_all (files w) (zip before.*2 vols))).
Proof.
  intros _ Hbefore%written_volumes_saved Hmissing.
  unfold ImagesDataset_save_sample.
  rewrite save_sample_loop_app, (save_sample_loop_run _ _ vols) by done.
  cbn [save_sample_loop]. unfold bind.
  destruct (save_sample_body_cases sample key output_path
              (set_files w (write_all (files w) (zip before.*2 vols))))
    as [Hbody Hnone].
  rewrite Hbody. unfold saved_volume at 1. rewrite Hmissing. cbn.
  destruct Hnone as (e & -> & He).
  { unfold saved_volume. by rewrite Hmissing. }
  by rewrite He.
Qed.

(** X11. When every key of the output paths names a volume of the sample
    whose tensor has a first dimension that is not empty, [save_sample]
    returns after writing, in the order of the output paths, each volume
    without its channel dimension and its affine matrix to the path given
    for its key. *)
Theorem save_sample_writes (sample : pydict value)
    (output_paths_dict : pydict string) (vols : list (tensor * ndarray))
    (w : world) :
  NoDup (dict_keys output_paths_dict) →
  Forall2 (λ kp va, written_volume w sample kp.1 = Some va)
    output_paths_dict vols →
  ImagesDataset_save_sample sample output_paths_dict w
    = (Ok tt,
       set_files w (write_all (files w) (zip output_paths_dict.*2 vols))).
Proof.
  intros _ Hall%written_volumes_saved. by apply save_sample_loop_run.
Qed.

End SaveSampleFacts.

(** ** Loading, then saving *)

Section LoadSave.
Context `{Writer}.

Lemma dict_get_zip {V} (ks : list string) (vs : list V) i k v :
  NoDup ks → ks !! i = Some k → vs !! i = Some v →
  dict_get k (zip ks vs) = Some v.
Proof.
  revert i vs. induction ks as [|k0 ks IH]; intros i vs Hnd Hk Hv; [done|].
  apply NoDup_cons in Hnd as [Hnotin Hnd].
  destruct vs as [|v0 vs]; [by destruct i|]. destruct i as [|i]; cbn in *.
  - injection Hk as ->. injection Hv as ->. by rewrite decide_True.
  - rewrite decide_False; [by eapply IH|].
    intros ->. apply Hnotin. by eapply list_elem_of_lookup_2.
Qed.

Lemma image_dict_for_fields fs image tl :
  NoDup [DATA; AFFINE; "type"; "path"; "stem"] →
  dict_get DATA (image_dict_for fs image tl) = Some (VTensor tl) ∧
  dict_get AFFINE (image_dict_for fs image tl)
    = Some (VArray (read_image fs (Image_path image)).2) ∧
  dict_get "type" (image_dict_for fs image tl) = Some (VStr (Image_type image)).
Proof.
  intros Hkeys. unfold image_dict_for. rewrite dict_display_image by done.
  apply NoDup_cons in Hkeys as [Hdata Hkeys].
  apply NoDup_cons in Hkeys as [Haff _].
  rewrite !not_elem_of_cons in Hdata. rewrite !not_elem_of_cons in Haff.
  destruct Hdata as (? & ? & ? & ? & _), Haff as (? & ? & ? & _).
  repeat (cbn [dict_get];
          first [rewrite decide_True by done
                | rewrite decide_False by (congruence || done)]).
  done.
Qed.

(** X12. Loading a subject and saving it again writes back what was read:
    when taking channel 0 of an unsqueezed tensor gives the tensor back,
    [save_sample] on the sample of [__getitem__], with one output path per
    image name, writes for each image, in order, the tensor and the affine
    matrix that [read_image] returned for it. *)
Theorem getitem_then_save_sample (subjects0 : list (list pyobj))
    (check_nans0 : bool) (ds : ImagesDataset) (index : Z)
    (imgs : list Image) (paths : list string) (w : world) :
  NoDup [DATA; AFFINE; "type"; "path"; "stem"] →
  (∀ t, tensor_getitem0 (tensor_unsqueeze0 t) = t) →
  ImagesDataset_init subjects0 None check_nans0 = Ok ds →
  valid_index (length subjects0) index →
  subjects0 !! Z.to_nat (index `mod` Z.of_nat (length subjects0))
    = Some (ObjImage <$> imgs) →
  length paths = length imgs →
  ∃ sample w1,
    ImagesDataset_getitem ds index w = (Ok sample, w1) ∧
    ImagesDataset_save_sample sample (zip (Image_name <$> imgs) paths) w1
      = (Ok tt,
         set_files w1
           (write_all (files w)
              (zip paths
                 ((λ image, read_image (files w) (Image_path image))
                    <$> imgs)))).
Proof.
  intros Hkeys Hround (Hne & Hall & -> & _)%ImagesDataset_init_valid
    Hvalid Hsubj Hlen.
  unfold ImagesDataset_getitem, bind, lift.
  cbn [subjects _transform check_nans].
  rewrite (list_getitem_valid _ _ _ Hvalid Hsubj).
  rewrite Forall_forall in Hall.
  destruct (Hall (ObjImage <$> imgs)) as [_ (imgs' & Heq & Hnd)].
  { by eapply list_elem_of_lookup_2. }
  apply fmap_ObjImage_inj in Heq as <-.
  destruct (getitem_loop_effects
              (mkImagesDataset subjects0 None check_nans0) imgs [] w Hnd)
    as (dls & tls & w1 & Hrun & Hld & Hlt & _ & _ & _ & _ & Hf & _ & _ & _
        & _ & Hat).
  { intros k Hin. by apply elem_of_nil in Hin. }
  rewrite Hrun. unfold ret. cbn [app].
  eexists _, w1. split; [done|].
  unfold ImagesDataset_save_sample.
  rewrite (save_sample_loop_run _ _
             ((λ image, read_image (files w) (Image_path image)) <$> imgs)).
  - rewrite snd_zip by (rewrite length_fmap; lia). by rewrite Hf.
  - apply Forall2_same_length_lookup_2.
    { rewrite length_zip, !length_fmap. lia. }
    intros i [k p] va Hi Hva. cbn [fst].
    apply lookup_zip_with_Some in Hi as (k' & p' & [= <- <-] & Hk & Hp).
    apply list_lookup_fmap_Some_1 in Hk as (image & -> & Himage).
    rewrite list_lookup_fmap, Himage in Hva. injection Hva as <-.
    destruct (lookup_lt_is_Some_2 dls i) as [dl Hdl].
    { rewrite Hld. by eapply lookup_lt_Some. }
    destruct (lookup_lt_is_Some_2 tls i) as [tl Htl].
    { rewrite Hlt. by eapply lookup_lt_Some. }
    destruct (Hat i image dl tl Himage Hdl Htl) as [Hd Ht].
    destruct (image_dict_for_fields (files w) image tl Hkeys)
      as (Hdata & Haff & _).
    unfold saved_volume.
    rewrite (dict_get_zip _ _ i _ (VDict dl) Hnd); cycle 1.
    { by rewrite list_lookup_fmap, Himage. }
    { by rewrite list_lookup_fmap, Hdl. }
    cbn [mbind option_bind fields_of]. rewrite Hd.
    cbn [mbind option_bind]. rewrite Hdata, Haff, Ht.
    cbn [mbind option_bind]. rewrite Hround.
    by destruct (read_image (files w) (Image_path image)).
Qed.

End LoadSave.

(** ** More on [RandomAffine] *)

Section MoreRandomAffine.
Context `{Externals}.

(** X13. The [isotropic] flag changes neither the draws nor the rotation:
    with and without it [get_params] leaves the same generator state and
    returns the same rotation angles, and the isotropic scaling factors
    are three copies of the first factor of the anisotropic ones.  Only
    the generator changes in the state. *)
Theorem get_params_isotropic (scales degrees : num * num) (w : world) :
  (get_params scales degrees true w).2 = (get_params scales degrees false w).2 ∧
  (∃ g, (get_params scales degrees false w).2 = set_generator w g) ∧
  ∃ s0 s1 s2 rotation,
    (get_params scales degrees false w).1 = Ok ([s0; s1; s2], rotation) ∧
    (get_params scales degrees true w).1 = Ok ([s0; s0; s0], rotation).
Proof.
  unfold get_params.
  destruct (uniform__spec (torch_FloatTensor 3) scales.1 scales.2 w)
    as (ss & g & Hs & Hls & _ & _).
  destruct (uniform__spec (torch_FloatTensor 3) degrees.1 degrees.2
              (set_generator w g)) as (rs & g' & Hr & _).
  destruct ss as [|s0 [|s1 [|s2 [|]]]]; try done.
  rewrite !(bind_ok _ _ _ _ _ Hs). cbv beta iota zeta.
  rewrite !(bind_ok _ _ _ _ _ Hr). cbn.
  split; [done|]. split; [by exists g'|]. by exists s0, s1, s2, rs.
Qed.

(** X14. [apply_affine_transform] with three scaling factors, on a tensor
    that exists, either fails and changes nothing, or returns the
    reference it was given after changing that tensor alone.  It fails
    with AssertionError when the tensor is not four-dimensional with a
    single channel, and otherwise with TypeError when the rotation does
    not have exactly three angles. *)
Theorem apply_affine_transform_outcomes (self : RandomAffine) (array : loc)
    (affine : ndarray) (s0 s1 s2 : num) (rotation : list num)
    (interp : Interpolation) (t : tensor) (w : world) :
  tensors w !! array = Some t →
  let shape_ok :=
    bool_decide (length (tensor_shape t) = 4)
    && bool_decide (tensor_shape t !! 0 = Some 1) in
  (shape_ok = false →
   apply_affine_transform self array affine [s0; s1; s2] rotation interp w
     = (Raise AssertionError, w)) ∧
  (shape_ok = true → length rotation ≠ 3 →
   apply_affine_transform self array affine [s0; s1; s2] rotation interp w
     = (Raise TypeError, w)) ∧
  (shape_ok = true → length rotation = 3 →
   ∃ x, apply_affine_transform self array affine [s0; s1; s2] rotation interp w
          = (Ok array, set_tensors w (<[array := x]> (tensors w)))).
Proof.
  intros Ht shape_ok. subst shape_ok.
  unfold apply_affine_transform, bind, read_tensor, assert, lift,
    write_tensor, get_rotation_transform, SetRotation_star, ret, raise.
  rewrite Ht.
  destruct (bool_decide (length (tensor_shape t) = 4));
    destruct (bool_decide (tensor_shape t !! 0 = Some 1)); cbn.
  all: split; [done|]; split; intros Hok Hlen; try done.
  all: destruct rotation as [|r0 [|r1 [|r2 [|]]]]; cbn in *;
    try done; try lia.
  by eauto.
Qed.

Lemma bind_Raise_inv {A B} (m : M A) (k : A → M B) w e w' :
  bind m k w = (Raise e, w') →
  m w = (Raise e, w') ∨ ∃ a w1, m w = (Ok a, w1) ∧ k a w1 = (Raise e, w').
Proof.
  unfold bind. destruct (m w) as [[a|e0] w1]; intros Heq.
  - right. by exists a, w1.
  - left. by simplify_eq.
Qed.

Lemma value_getitem_Raise v k w e w' :
  value_getitem v k w = (Raise e, w') → w' = w.
Proof.
  unfold value_getitem. intros Hg. repeat case_match; by simplify_eq.
Qed.

Lemma apply_affine_transform_Raise (self : RandomAffine) array affine scaling
    rotation interp w e w' :
  apply_affine_transform self array affine scaling rotation interp w
    = (Raise e, w') → w' = w.
Proof.
  unfold apply_affine_transform.
  unfold bind, read_tensor, assert, lift, write_tensor, ret, raise.
  intros Hr. repeat case_match; by simplify_eq.
Qed.

(** A failing pass of the loop body changes nothing. *)
Lemma body_Raise self scaling rotation v w e w' :
  apply_transform_body self scaling rotation v w = (Raise e, w') → w' = w.
Proof.
  unfold apply_transform_body. intros Hrun.
  apply bind_Raise_inv in Hrun as [Hb|(b & w1 & Hb & Hrun)]; [done|].
  injection Hb as <- <-.
  destruct (is_image_dict (dicts w) v); cbn [negb] in Hrun; [|done].
  apply bind_Raise_inv in Hrun as [Hty|(ty & w1 & Hty & Hrun)];
    [by eapply value_getitem_Raise|].
  apply value_getitem_Ok in Hty as (-> & l & d & -> & Hd & Hty).
  apply bind_Raise_inv in Hrun as [Hdata|(data & w1 & Hdata & Hrun)];
    [by eapply value_getitem_Raise|].
  apply value_getitem_Ok in Hdata as (-> & _ & d' & [= <-] & Hd' & Hdata).
  rewrite Hd in Hd'. injection Hd' as <-.
  apply bind_Raise_inv in Hrun as [Haff|(aff & w1 & Haff & Hrun)];
    [by eapply value_getitem_Raise|].
  apply value_getitem_Ok in Haff as (-> & _ & _ & _ & _ & _).
  apply bind_Raise_inv in Hrun as [Htl|(tl & w1 & Htl & Hrun)].
  { unfold as_tensor, ret, raise in Htl. destruct data; by simplify_eq. }
  unfold as_tensor, ret, raise in Htl.
  destruct data as [tl'| | | |]; try done. injection Htl as <- <-.
  apply bind_Raise_inv in Hrun as [Ha|(a & w1 & Ha & Hrun)].
  { unfold as_array, ret, raise in Ha. destruct aff; by simplify_eq. }
  unfold as_array, ret, raise in Ha.
  destruct aff as [| |a'| |]; try done. injection Ha as <- <-.
  apply bind_Raise_inv in Hrun as [Hr|(r & w1 & Hr & Hrun)];
    [by eapply apply_affine_transform_Raise|].
  apply apply_affine_transform_Ok in Hr as (-> & x & ->).
  unfold value_setitem in Hrun. cbn [dicts set_tensors] in Hrun.
  by rewrite Hd in Hrun.
Qed.

(** Every outcome of the loop body: dicts, generator, files and trace
    stay, and a failing pass changes nothing. *)
Lemma body_any self scaling rotation v w :
  dicts (apply_transform_body self scaling rotation v w).2 = dicts w ∧
  generator (apply_transform_body self scaling rotation v w).2 = generator w ∧
  files (apply_transform_body self scaling rotation v w).2 = files w ∧
  trace (apply_transform_body self scaling rotation v w).2 = trace w ∧
  ∀ e, (apply_transform_body self scaling rotation v w).1 = Raise e →
       (apply_transform_body self scaling rotation v w).2 = w.
Proof.
  destruct (apply_transform_body self scaling rotation v w) as [[[]|e] w']
    eqn:Hrun; cbn [fst snd].
  - apply body_frame in Hrun as (? & ? & ? & ? & _). by repeat split.
  - apply body_Raise in Hrun as ->. by repeat split.
Qed.

Lemma loop_any self scaling rotation vs w :
  dicts (apply_transform_loop self scaling rotation vs w).2 = dicts w ∧
  generator (apply_transform_loop self scaling rotation vs w).2 = generator w ∧
  files (apply_transform_loop self scaling rotation vs w).2 = files w ∧
  trace (apply_transform_loop self scaling rotation vs w).2 = trace w.
Proof.
  revert w. induction vs as [|v vs IH]; intros w; [done|].
  cbn [apply_transform_loop]. unfold bind.
  destruct (body_any self scaling rotation v w) as (Hd & Hg & Hf & Htr & _).
  destruct (apply_transform_body self scaling rotation v w) as [[[]|e] w1];
    cbn [fst snd] in *; [|done].
  destruct (IH w1) as (Hd' & Hg' & Hf' & Htr').
  repeat split; congruence.
Qed.

Lemma loop_app self scaling rotation vs vs' w :
  apply_transform_loop self scaling rotation (vs ++ vs') w
    = match apply_transform_loop self scaling rotation vs w with
      | (Ok _, w1) => apply_transform_loop self scaling rotation vs' w1
      | (Raise e, w1) => (Raise e, w1)
      end.
Proof.
  revert w. induction vs as [|v vs IH]; intros w; [done|].
  cbn [app apply_transform_loop]. unfold bind.
  destruct (apply_transform_body self scaling rotation v w) as [[[]|e] w1];
    [apply IH | done].
Qed.

(** A call past the shape check, as a run of the loop. *)
Lemma apply_transform_unfold self sample w scaling rotation g :
  check_consistent_shape (tensors w) (dicts w) sample = true →
  get_params (scales self) (degrees self) (isotropic self) w
    = (Ok (scaling, rotation), set_generator w g) →
  RandomAffine_apply_transform self sample w
    = match apply_transform_loop self scaling rotation
              (dict_values (with_params scaling rotation sample))
              (set_generator w g) with
      | (Ok _, w2) => (Ok (with_params scaling rotation sample), w2)
      | (Raise e, w2) => (Raise e, w2)
      end.
Proof.
  intros Hcheck Hp. unfold RandomAffine_apply_transform, bind at 1.
  rewrite Hcheck. by rewrite (bind_ok _ _ _ _ _ Hp).
Qed.

(** X15. [apply_transform] checks the shapes first: when the check fails
    the call raises before any random number is drawn, and the state is as
    before.  When the check passes, the generator ends in the state after
    the six draws of the parameters whether or not the call then fails on
    an image, and no file or trace entry changes. *)
Theorem apply_transform_generator (self : RandomAffine)
    (sample : pydict value) (w : world) :
  (check_consistent_shape (tensors w) (dicts w) sample = false →
   ∃ e, RandomAffine_apply_transform self sample w = (Raise e, w)) ∧
  (check_consistent_shape (tensors w) (dicts w) sample = true →
   generator (RandomAffine_apply_transform self sample w).2
     = (drawn_params self (generator w)).2 ∧
   files (RandomAffine_apply_transform self sample w).2 = files w ∧
   trace (RandomAffine_apply_transform self sample w).2 = trace w).
Proof.
  split; intros Hcheck.
  - exists ValueError.
    unfold RandomAffine_apply_transform, bind at 1. by rewrite Hcheck.
  - destruct (get_params_drawn self w)
      as (scaling & r0 & r1 & r2 & g & Hdrawn & _ & Hp).
    rewrite (apply_transform_unfold _ _ _ _ _ _ Hcheck Hp), Hdrawn.
    pose proof (loop_any self scaling [r0; r1; r2]
                  (dict_values (with_params scaling [r0; r1; r2] sample))
                  (set_generator w g)) as (Hd & Hg & Hf & Htr).
    destruct (apply_transform_loop _ _ _ _ _) as [[[]|err] w2];
      cbn [fst snd] in *; by repeat split.
Qed.

(** X16. With no image dict in it (an empty sample, say), the sample comes
    back with the two parameter entries and nothing else happens: every
    tensor and dict is as before. *)
Theorem apply_transform_no_images (self : RandomAffine)
    (sample : pydict value) (w : world) :
  check_consistent_shape (tensors w) (dicts w) sample = true →
  Forall (λ v, is_image_dict (dicts w) v = false)
    (dict_values (stored self sample w)) →
  RandomAffine_apply_transform self sample w
    = (Ok (stored self sample w), after_params self w) ∧
  tensors (after_params self w) = tensors w ∧
  dicts (after_params self w) = dicts w.
Proof.
  intros Hcheck Hnone.
  destruct (sampled_run self w)
    as (s0 & s1 & s2 & r0 & r1 & r2 & g & Hp & Hs).
  unfold after_params, stored in *. rewrite Hp, Hs in *. cbn [fst snd] in *.
  split; [|done].
  unfold RandomAffine_apply_transform, bind at 1. rewrite Hcheck.
  rewrite (bind_ok _ _ _ _ _ Hp). cbv beta iota.
  fold (with_params [s0; s1; s2] [r0; r1; r2] sample).
  assert (∀ vs w1, Forall (λ v, is_image_dict (dicts w1) v = false) vs →
            apply_transform_loop self [s0; s1; s2] [r0; r1; r2] vs w1
              = (Ok tt, w1)) as Hloop.
  { induction vs as [|v vs IH]; intros w1 Hall; [done|].
    apply Forall_cons in Hall as [Hv Hall]. cbn [apply_transform_loop].
    rewrite (bind_ok _ _ _ _ _ (body_skip _ _ _ _ _ Hv)). by apply IH. }
  by rewrite (bind_ok _ _ _ _ _ (Hloop _ (set_generator w g) Hnone)).
Qed.

(** X17. The keys of the returned sample: the given keys in their order,
    then ['random_scaling'] and ['random_rotation'], in this order, each
    only if the sample did not have it.  So a second pass adds no key. *)
Theorem apply_transform_keys (self : RandomAffine) (sample : pydict value)
    (w : world) (sample' : pydict value) (w' : world) :
  RandomAffine_apply_transform self sample w = (Ok sample', w') →
  dict_keys sample'
    = dict_keys sample
      ++ filter (λ k, k ∉ dict_keys sample)
           ["random_scaling"; "random_rotation"] ∧
  ∀ sample'' w'',
    RandomAffine_apply_transform self sample' w' = (Ok sample'', w'') →
    dict_keys sample'' = dict_keys sample'.
Proof.
  assert (∀ scaling rotation (d : pydict value),
            dict_keys (with_params scaling rotation d)
              = dict_keys d
                ++ filter (λ k, k ∉ dict_keys d)
                     ["random_scaling"; "random_rotation"]) as Hkeys.
  { intros scaling rotation d. unfold with_params.
    rewrite !dict_keys_set. rewrite !filter_cons, filter_nil.
    destruct (decide ("random_scaling" ∈ dict_keys d)) as [Hs|Hs].
    - rewrite (decide_False (P := "random_scaling" ∉ dict_keys d)) by tauto.
      destruct (decide ("random_rotation" ∈ dict_keys d)) as [Hr|Hr].
      + rewrite (decide_False (P := "random_rotation" ∉ dict_keys d)) by tauto.
        by rewrite app_nil_r.
      + by rewrite (decide_True (P := "random_rotation" ∉ dict_keys d)).
    - rewrite (decide_True (P := "random_scaling" ∉ dict_keys d)) by done.
      destruct (decide ("random_rotation" ∈ dict_keys d ++ ["random_scaling"]))
        as [Hr|Hr].
      + apply elem_of_app in Hr as [Hr|Hr%list_elem_of_singleton]; [|done].
        by rewrite (decide_False (P := "random_rotation" ∉ dict_keys d))
          by tauto.
      + rewrite (decide_True (P := "random_rotation" ∉ dict_keys d)).
        * by rewrite <- app_assoc.
        * intros Hin. apply Hr, elem_of_app. by left. }
  intros (-> & _)%apply_transform_Ok. split; [apply Hkeys|].
  intros sample'' w'' (-> & _)%apply_transform_Ok.
  unfold stored at 1. rewrite Hkeys.
  rewrite !filter_cons, filter_nil.
  rewrite !(decide_False (P := _ ∉ _)); [by rewrite app_nil_r | |].
  all: intros Hnot; apply Hnot.
  all: apply dict_keys_with_params; auto.
Qed.

End MoreRandomAffine.

(** ** [apply_transform] on a sample whose image dicts share a tensor *)

Section MoreApply.
Context `{Externals}.

Lemma loop_skip_all self scaling rotation vs w :
  Forall (λ v, is_image_dict (dicts w) v = false) vs →
  apply_transform_loop self scaling rotation vs w = (Ok tt, w).
Proof.
  induction vs as [|v vs IH]; intros Hall; [done|].
  apply Forall_cons in Hall as [Hv Hall]. cbn [apply_transform_loop].
  rewrite (bind_ok _ _ _ _ _ (body_skip _ _ _ _ _ Hv)). by apply IH.
Qed.

(** X18. Two image dicts that share a tensor get it resampled twice.
    When the image dicts before the second sharer are well formed with
    distinct tensors and no image dict follows it, and assigning to
    [array[0]] keeps the shape, the shared tensor ends as the resampling,
    with the second dict's interpolation and affine matrix, of the
    resampling with the first dict's. *)
Theorem apply_transform_shared_tensor (self : RandomAffine)
    (sample : pydict value) (w : world) (before after : list value)
    (first : value) (l : loc) (d : pydict value) (ty1 ty2 : value)
    (tl : loc) (t : tensor) (affine1 affine2 : ndarray) :
  (∀ t x, tensor_shape (tensor_setitem0 t x) = tensor_shape t) →
  check_consistent_shape (tensors w) (dicts w) sample = true →
  dict_values (stored self sample w) = before ++ VDict l :: after →
  well_formed_images w before →
  NoDup (data_refs w before) →
  first ∈ before →
  is_image_dict (dicts w) first = true →
  image_of w first = Some (ty1, tl, t, affine1) →
  is_image_dict (dicts w) (VDict l) = true →
  dicts w !! l = Some d →
  dict_get "type" d = Some ty2 →
  dict_get DATA d = Some (VTensor tl) →
  dict_get AFFINE d = Some (VArray affine2) →
  Forall (λ v, is_image_dict (dicts w) v = false) after →
  ∃ r0 r1 r2 w',
    (sampled self w).2 = [r0; r1; r2] ∧
    RandomAffine_apply_transform self sample w
      = (Ok (stored self sample w), w') ∧
    tensors w' !! tl
      = Some (resampled (affine_composite (sampled self w).1 r0 r1 r2)
                (chosen self ty2)
                (resampled (affine_composite (sampled self w).1 r0 r1 r2)
                   (chosen self ty1) t affine1)
                affine2).
Proof.
  intros Hshape Hcheck Hvalues Hwf Hnd Hfirst His1 Himg1 His2 Hd Hty Hdata
    Haff Hafter.
  destruct (sampled_run self w)
    as (s0 & s1 & s2 & r0 & r1 & r2 & g & Hp & Hs).
  rewrite (apply_transform_unfold _ _ _ _ _ _ Hcheck Hp).
  unfold stored in *. rewrite Hs in *. cbn [fst snd] in *.
  rewrite Hvalues, loop_app.
  destruct (loop_run self [s0; s1; s2] r0 r1 r2 before (set_generator w g)
              Hwf Hnd) as (ts' & Hloop & Hframe & Hres).
  rewrite Hloop. cbn [apply_transform_loop].
  pose proof (Hres first ty1 tl t affine1 Hfirst His1 Himg1) as Hts.
  apply image_of_Some in Himg1 as (_ & _ & _ & _ & _ & _ & _ & _ & H4 & H1).
  set (t1 := resampled _ (chosen self ty1) t affine1) in *.
  assert (image_of (set_tensors (set_generator w g) ts') (VDict l)
          = Some (ty2, tl, t1, affine2)) as Himg2.
  { unfold image_of. cbn [dicts tensors set_tensors set_generator].
    rewrite Hd. cbn [mbind option_bind]. rewrite Hty.
    cbn [mbind option_bind]. rewrite Hdata, Haff, Hts.
    cbn [mbind option_bind]. unfold t1, resampled. rewrite Hshape.
    by rewrite !bool_decide_eq_true_2 by done. }
  rewrite (bind_ok _ _ _ _ _
             (body_image self [s0; s1; s2] r0 r1 r2 (VDict l)
                (set_tensors (set_generator w g) ts') ty2 tl t1 affine2
                His2 Himg2)).
  rewrite loop_skip_all by done.
  eexists r0, r1, r2, _. split; [done|]. split; [done|].
  cbn. by rewrite lookup_insert_eq.
Qed.

End MoreApply.

(** ** A dataset whose transform is a [RandomAffine] *)

Section DatasetWithAffine.
Context `{Externals}.

Lemma getitem_loop_ext self self' items sample w :
  check_nans self = check_nans self' →
  getitem_loop self items sample w = getitem_loop self' items sample w.
Proof.
  intros Hcn. revert sample w.
  induction items as [|item items IH]; intros sample w; [done|].
  cbn [getitem_loop]. unfold bind.
  assert (getitem_body self sample item w = getitem_body self' sample item w)
    as -> by (unfold getitem_body; by rewrite Hcn).
  destruct (getitem_body self' sample item w) as [[s1|e] w1]; [apply IH|done].
Qed.

Lemma dict_values_set_elem {V} (k : string) (v v' : V) (d : pydict V) :
  v' ∈ dict_values (dict_set k v d) → v' = v ∨ v' ∈ dict_values d.
Proof.
  unfold dict_values. induction d as [|[k0 v0] r IH]; cbn [dict_set].
  - intros ?%list_elem_of_singleton. by left.
  - destruct (decide (k = k0)) as [->|Hne]; cbn [fmap list_fmap snd].
    + intros [->|Hin]%elem_of_cons; [by left|]. right. by right.
    + intros [->|Hin]%elem_of_cons; [right; left|].
      destruct (IH Hin) as [->|Hin']; [by left|]. right. by right.
Qed.

Lemma omap_dict_set_sublist {V B} (f : V → option B) (k : string) (v : V)
    (d : pydict V) :
  f v = None →
  omap f (dict_values (dict_set k v d)) `sublist_of` omap f (dict_values d).
Proof.
  intros Hv. unfold dict_values. induction d as [|[k0 v0] r IH];
    cbn [dict_set].
  - simpl. by rewrite Hv.
  - destruct (decide (k = k0)) as [->|Hne]; simpl.
    + rewrite Hv. destruct (f v0); [by apply sublist_cons | done].
    + destruct (f v0); [by apply sublist_skip | done].
Qed.

Lemma omap_sublist_Forall2 {A B} (f : A → option B) (xs : list A)
    (ys : list B) :
  Forall2 (λ x y, f x = None ∨ f x = Some y) xs ys →
  omap f xs `sublist_of` ys.
Proof.
  induction 1 as [|x y xs ys [Hx|Hx] _ IH]; cbn; [constructor | |];
    rewrite Hx; [by apply sublist_cons | by apply sublist_skip].
Qed.

(** X19. A dataset built with [apply_transform] of a [RandomAffine] as its
    transform.  When the files hold three-dimensional volumes whose shapes
    pass the check, [unsqueeze(0)] puts a dimension of size one in front,
    and a list of floats is no image dict, [__getitem__] returns the loaded
    sample with the parameters stored in it, and every image that is kept
    as an image dict has its tensor replaced by the resampling of what was
    read from its file, with nearest-neighbour interpolation when its type
    is [LABEL]. *)
Theorem getitem_with_random_affine (subjects0 : list (list pyobj))
    (check_nans0 : bool) (self : RandomAffine) (ds : ImagesDataset)
    (index : Z) (imgs : list Image) (w : world) :
  NoDup [DATA; AFFINE; "type"; "path"; "stem"] →
  (∀ t, tensor_shape (tensor_unsqueeze0 t) = 1 :: tensor_shape t) →
  (∀ store xs, is_image_dict store (VFloats xs) = false) →
  ImagesDataset_init subjects0 (Some (RandomAffine_apply_transform self))
    check_nans0 = Ok ds →
  valid_index (length subjects0) index →
  subjects0 !! Z.to_nat (index `mod` Z.of_nat (length subjects0))
    = Some (ObjImage <$> imgs) →
  (∀ image, image ∈ imgs →
     length (tensor_shape (read_image (files w) (Image_path image)).1) = 3) →
  (∀ sample,
     (ImagesDataset_getitem (ImagesDataset_set_transform ds None) index w).1
       = Ok sample →
     check_consistent_shape
       (tensors (ImagesDataset_getitem
                   (ImagesDataset_set_transform ds None) index w).2)
       (dicts (ImagesDataset_getitem
                 (ImagesDataset_set_transform ds None) index w).2)
       sample = true) →
  ∃ sample w1 r0 r1 r2 w2,
    ImagesDataset_getitem (ImagesDataset_set_transform ds None) index w
      = (Ok sample, w1) ∧
    (sampled self w1).2 = [r0; r1; r2] ∧
    ImagesDataset_getitem ds index w = (Ok (stored self sample w1), w2) ∧
    ∀ image dl,
      image ∈ imgs →
      dict_get (Image_name image) (stored self sample w1) = Some (VDict dl) →
      is_image_dict (dicts w1) (VDict dl) = true →
      ∃ d tl,
        dicts w2 !! dl = Some d ∧ dict_get DATA d = Some (VTensor tl) ∧
        tensors w2 !! tl
          = Some (resampled
                    (affine_composite (sampled self w1).1 r0 r1 r2)
                    (chosen self (VStr (Image_type image)))
                    (tensor_unsqueeze0
                       (read_image (files w) (Image_path image)).1)
                    (read_image (files w) (Image_path image)).2).
Proof.
  intros Hkeys Hunsq Hfloats
    (Hne & Hall & -> & _)%ImagesDataset_init_valid
    Hvalid Hsubj H3d Hcheck.
  rewrite Forall_forall in Hall.
  destruct (Hall (ObjImage <$> imgs)) as [_ (imgs' & Heq & Hnd)].
  { by eapply list_elem_of_lookup_2. }
  apply fmap_ObjImage_inj in Heq as <-.
  set (ds0 := mkImagesDataset subjects0 None check_nans0).
  destruct (getitem_loop_effects ds0 imgs [] w Hnd)
    as (dls & tls & w1 & Hrun & Hld & Hlt & Hnd_d & Hnd_t & _ & _ & Hf & _
        & _ & _ & _ & Hat).
  { intros k Hin. by apply elem_of_nil in Hin. }
  cbn [app] in Hrun.
  set (sample := zip (Image_name <$> imgs) (VDict <$> dls)) in *.
  assert (ImagesDataset_getitem
            (ImagesDataset_set_transform
               (mkImagesDataset subjects0
                  (Some (RandomAffine_apply_transform self)) check_nans0)
               None) index w = (Ok sample, w1)) as Hloaded.
  { unfold ImagesDataset_getitem, ImagesDataset_set_transform, bind, lift.
    cbn [subjects _transform check_nans].
    rewrite (list_getitem_valid _ _ _ Hvalid Hsubj).
    by rewrite (getitem_loop_ext _ ds0), Hrun. }
  rewrite Hloaded in *. cbn [fst snd] in Hcheck.
  specialize (Hcheck sample eq_refl).
  (* the image dict of each image *)
  assert (∀ i image dl tl, imgs !! i = Some image → dls !! i = Some dl →
            tls !! i = Some tl →
            image_of w1 (VDict dl)
              = Some (VStr (Image_type image), tl,
                      tensor_unsqueeze0
                        (read_image (files w) (Image_path image)).1,
                      (read_image (files w) (Image_path image)).2))
    as Himage.
  { intros i image dl tl Hi Hdl Htl.
    destruct (Hat i image dl tl Hi Hdl Htl) as [Hd Ht].
    destruct (image_dict_for_fields (files w) image tl Hkeys)
      as (Hdata & Haff & Hty).
    unfold image_of. rewrite Hd. cbn [mbind option_bind]. rewrite Hty.
    cbn [mbind option_bind]. rewrite Hdata, Haff, Ht.
    cbn [mbind option_bind]. rewrite Hunsq. cbn [length].
    rewrite H3d by by eapply list_elem_of_lookup_2.
    by rewrite !bool_decide_eq_true_2. }
  assert (dict_values sample = VDict <$> dls) as Hvalues.
  { unfold dict_values, sample. apply snd_zip. rewrite !length_fmap. lia. }
  assert (∀ v, v ∈ dict_values (stored self sample w1) →
            (∃ xs, v = VFloats xs) ∨
            ∃ i dl, dls !! i = Some dl ∧ v = VDict dl) as Hstored.
  { intros v Hin. unfold stored, with_params in Hin.
    apply dict_values_set_elem in Hin as [->|Hin]; [by eauto|].
    apply dict_values_set_elem in Hin as [->|Hin]; [by eauto|].
    rewrite Hvalues in Hin.
    apply list_elem_of_fmap in Hin as (dl & -> & Hin).
    apply list_elem_of_lookup in Hin as [i Hi]. by eauto 10. }
  assert (well_formed_images w1 (dict_values (stored self sample w1))) as Hwf.
  { unfold well_formed_images. apply Forall_forall. intros v Hin His.
    destruct (Hstored v Hin) as [[xs ->]|(i & dl & Hdl & ->)].
    { by rewrite Hfloats in His. }
    destruct (lookup_lt_is_Some_2 imgs i) as [image Hi].
    { rewrite <- Hld. by eapply lookup_lt_Some. }
    destruct (lookup_lt_is_Some_2 tls i) as [tl Htl].
    { rewrite Hlt, <- Hld. by eapply lookup_lt_Some. }
    by rewrite (Himage i image dl tl Hi Hdl Htl). }
  assert (NoDup (data_refs w1 (dict_values (stored self sample w1)))) as Hrefs.
  { eapply sublist_NoDup; [exact Hnd_t|].
    unfold data_refs, stored, with_params.
    etrans; [apply omap_dict_set_sublist; by rewrite Hfloats|].
    etrans; [apply omap_dict_set_sublist; by rewrite Hfloats|].
    rewrite Hvalues. apply omap_sublist_Forall2.
    apply Forall2_fmap_l, Forall2_same_length_lookup_2; [lia|].
    intros i dl tl Hdl Htl.
    destruct (lookup_lt_is_Some_2 imgs i) as [image Hi].
    { rewrite <- Hld. by eapply lookup_lt_Some. }
    unfold compose. cbv beta.
    rewrite (Himage i image dl tl Hi Hdl Htl). cbn.
    destruct (is_image_dict (dicts w1) (VDict dl)); [by right | by left]. }
  destruct (apply_transform_run self sample w1 Hcheck Hwf Hrefs)
    as (r0 & r1 & r2 & w2 & _ & Hrot & Happly & Hd2 & Hres).
  exists sample, w1, r0, r1, r2, w2.
  split; [done|]. split; [done|]. split.
  { unfold ImagesDataset_getitem, bind, lift.
    cbn [subjects _transform check_nans].
    rewrite (list_getitem_valid _ _ _ Hvalid Hsubj).
    by rewrite (getitem_loop_ext _ ds0), Hrun. }
  intros image dl Hin Hget His.
  apply list_elem_of_lookup in Hin as [i Hi].
  destruct (lookup_lt_is_Some_2 dls i) as [dl' Hdl].
  { rewrite Hld. by eapply lookup_lt_Some. }
  destruct (lookup_lt_is_Some_2 tls i) as [tl Htl].
  { rewrite Hlt. by eapply lookup_lt_Some. }
  assert (dl' = dl) as ->.
  { destruct (dict_get_with_params (sampled self w1).1 (sampled self w1).2
                sample) as (Hgs & Hgr & Hother).
    unfold stored in Hget.
    destruct (decide (Image_name image = "random_scaling")) as [Hn|Hn1].
    { rewrite Hn, Hgs in Hget. done. }
    destruct (decide (Image_name image = "random_rotation")) as [Hn|Hn2].
    { rewrite Hn, Hgr in Hget. done. }
    rewrite Hother in Hget by done. unfold sample in Hget.
    rewrite (dict_get_zip _ _ i _ (VDict dl') Hnd) in Hget.
    - by injection Hget.
    - by rewrite list_lookup_fmap, Hi.
    - by rewrite list_lookup_fmap, Hdl. }
  pose proof (Himage i image dl tl Hi Hdl Htl) as Himg.
  destruct (Hat i image dl tl Hi Hdl Htl) as [Hd _].
  destruct (image_dict_for_fields (files w) image tl Hkeys) as (Hdata & _).
  exists (image_dict_for (files w) image tl), tl.
  split; [by rewrite Hd2|]. split; [done|].
  apply (Hres (VDict dl)); [|done|done].
  by eapply dict_get_elem_of.
Qed.

End DatasetWithAffine.

(** ** The code on examples *)

Import Toy.

Example getitem_sample1 :
  (ImagesDataset_getitem dataset1 0 world0).1 = Ok sample1.
Proof. vm_compute. reflexivity. Qed.

Example getitem_last :
  ImagesDataset_getitem dataset1 (-1) world0
    = ImagesDataset_getitem dataset1 0 world0 ∧
  (ImagesDataset_getitem dataset1 1 world0).1 = Raise IndexError ∧
  (ImagesDataset_getitem dataset1 (-2) world0).1 = Raise IndexError.
Proof. vm_compute. done. Qed.

Example apply_transform_sample2 :
  (RandomAffine_apply_transform affine_default sample1 world1).1 = Ok sample2.
Proof. vm_compute. reflexivity. Qed.

(** The intensity image went through linear interpolation (2), the label
    map through nearest neighbour (1). *)
Example apply_transform_tensors :
  tensors world1 !! 0 = Some ([1; 4; 5; 6], 1200%Z) ∧
  tensors world1 !! 1 = Some ([1; 4; 5; 6], 1300%Z) ∧
  tensors world2 !! 0 = Some ([1; 4; 5; 6], (-517450)%Z) ∧
  tensors world2 !! 1 = Some ([1; 4; 5; 6], (-517351)%Z).
Proof. vm_compute. done. Qed.

(** When two image dicts share a tensor, it is resampled twice. *)
Example shared_tensor_resampled_twice :
  let t := ([1; 4; 5; 6], 1200%Z) in
  let tr := affine_composite [905; 912; 919]%Z (-9974)%Z (-9967)%Z (-9960)%Z in
  tensors (RandomAffine_apply_transform affine_default shared_sample
             shared_world).2 !! 0
    = Some (resampled tr Linear (resampled tr Linear t ([4; 4], 1%Z))
              ([4; 4], 1%Z)).
Proof. vm_compute. reflexivity. Qed.

(** ** The theorems at concrete inputs *)

Ltac by_computation := apply (bool_decide_unpack _); vm_compute; exact I.


Lemma Image_init_validates_path_witness :
  (Image_init "t1" ArgOther "intensity" world0).1 = Raise TypeError ∧
  (Image_init "t1" (ArgStr "~nosuchuser/t1.nii") "intensity" world0).1
    = Raise RuntimeError ∧
  (Image_init "t1" (ArgStr "/root/t1.nii") "intensity" world0).1
    = Raise PermissionError ∧
  (Image_init "t1" (ArgStr "~/t1.nii") "intensity" world0).1
    = Raise FileNotFoundError ∧
  (Image_init "t1" (ArgStr "/data/t1.nii") "intensity" world0).1
    = Ok (mkImage "t1" "/data/t1.nii" "intensity") ∧
  (Image_init "ct" (ArgPath "/data/dicom") "intensity" world0).1
    = Ok (mkImage "ct" "/data/dicom" "intensity") ∧
  path_exists (files world0) "/data/dicom" = Ok true.
Proof.
  destruct (Image_init_validates_path "t1" ArgOther "intensity" world0)
    as (Htype & _).
  destruct (Image_init_validates_path "t1" (ArgStr "~nosuchuser/t1.nii")
              "intensity" world0) as (_ & Huser & _).
  destruct (Image_init_validates_path "t1" (ArgStr "/root/t1.nii")
              "intensity" world0) as (_ & _ & Hquery & _).
  destruct (Image_init_validates_path "t1" (ArgStr "~/t1.nii")
              "intensity" world0) as (_ & _ & _ & Hmissing & _).
  destruct (Image_init_validates_path "t1" (ArgStr "/data/t1.nii")
              "intensity" world0) as (_ & _ & _ & _ & Hfile & _).
  destruct (Image_init_validates_path "ct" (ArgPath "/data/dicom")
              "intensity" world0) as (_ & _ & _ & _ & Hdir & Hexists).
  split; [apply (Htype TypeError); reflexivity|].
  split; [apply (Huser "~nosuchuser/t1.nii"); reflexivity|].
  split; [apply (Hquery "/root/t1.nii" "/root/t1.nii"); reflexivity|].
  split; [apply (Hmissing "~/t1.nii" "/home/user/t1.nii"); reflexivity|].
  split; [apply (Hfile "/data/t1.nii" "/data/t1.nii"); reflexivity|].
  split; [apply (Hdir "/data/dicom" "/data/dicom"); reflexivity|].
  apply (Hexists (mkImage "ct" "/data/dicom" "intensity")).
  apply (Hdir "/data/dicom" "/data/dicom"); reflexivity.
Defined.

(** A path that names a user without a home directory: the argument is
    converted to a path, and the constructor fails with the RuntimeError of
    [expanduser], before any query of the file system. *)
Lemma Image_init_unknown_user :
  Path (ArgStr "~nosuchuser/t1.nii") = Ok "~nosuchuser/t1.nii" ∧
  Image_init "t1" (ArgStr "~nosuchuser/t1.nii") "intensity" world0
    = (Raise RuntimeError, world0) ∧
  ¬ ((Image_init "t1" (ArgStr "~nosuchuser/t1.nii") "intensity" world0).1
       = Raise FileNotFoundError ∨
     ∃ image,
       (Image_init "t1" (ArgStr "~nosuchuser/t1.nii") "intensity" world0).1
         = Ok image).
Proof.
  split; [reflexivity|]. split; [reflexivity|].
  intros [Hnot | [image Hok]]; [discriminate Hnot | discriminate Hok].
Qed.

Lemma Image_lazy_loading_witness :
  (Image_init "t2" (ArgStr "~/t2.nii") "intensity" world_home).1
    = Ok (mkImage "t2" "/home/user/t2.nii" "intensity") ∧
  reads (trace (Image_init "t1" (ArgStr "/data/t1.nii") "intensity" world0).2)
    = [] ∧
  (Image_init "t1" (ArgStr "/data/t1.nii") "intensity" world0).1 = Ok t1 ∧
  reads (trace (Image_load t1 true world0).2) = ["/data/t1.nii"].
Proof.
  destruct (Image_lazy_loading "t1" (ArgStr "/data/t1.nii") "intensity"
              t1 true world0)
    as [(Hinit & _ & Hok & _) (l & _ & _ & _ & Hload)].
  destruct (Image_lazy_loading "t2" (ArgStr "~/t2.nii")
              "intensity" t1 true world_home) as [(_ & _ & Hok' & _) _].
  split; [apply (Hok' "~/t2.nii" "/home/user/t2.nii"); reflexivity|].
  split; [exact Hinit|].
  split; [apply (Hok "/data/t1.nii" "/data/t1.nii"); reflexivity|].
  exact Hload.
Defined.

Lemma Subject_unique_names_witness :
  ([t1; seg] ≠ [] ∧ NoDup (Image_name <$> [t1; seg]) ∧
   ∃ s, Subject_init [ObjImage t1; ObjImage seg] "subject" = Ok s ∧
        Subject_items s = [ObjImage t1; ObjImage seg]) ∧
  (¬ NoDup (Image_name <$> [t1; seg; t1]) ∧
   Subject_init [ObjImage t1; ObjImage seg; ObjImage t1] "subject"
     = Raise KeyError).
Proof.
  assert (NoDup (Image_name <$> [t1; seg])) as Hnd by by_computation.
  assert (¬ NoDup (Image_name <$> [t1; seg; t1])) as Hdup by by_computation.
  destruct (Subject_unique_names [t1; seg] "subject") as [_ Hok].
  destruct (Subject_unique_names [t1; seg; t1] "subject") as [Hraise _].
  split.
  - split; [done|]. split; [done|].
    destruct (Hok ltac:(done) Hnd) as (s & Hs & Hitems & _). by exists s.
  - split; [done|]. by apply Hraise.
Defined.

Lemma getitem_builds_sample_witness :
  NoDup [DATA; AFFINE; "type"; "path"; "stem"] ∧
  ImagesDataset_init [subject1] None true = Ok dataset1 ∧
  (- Z.of_nat (length [subject1]) ≤ 0 < Z.of_nat (length [subject1]))%Z ∧
  [subject1] !! Z.to_nat (0 `mod` Z.of_nat (length [subject1])) = Some subject1 ∧
  ∃ sample w',
    ImagesDataset_getitem dataset1 0 world0 = (Ok sample, w') ∧
    dict_keys sample = ["t1"; "seg"].
Proof.
  assert (NoDup [DATA; AFFINE; "type"; "path"; "stem"]) as Hkeys
    by by_computation.
  assert (ImagesDataset_init [subject1] None true = Ok dataset1) as Hinit
    by reflexivity.
  assert (- Z.of_nat (length [subject1]) ≤ 0 < Z.of_nat (length [subject1]))%Z
    as Hvalid by (cbn; lia).
  split; [done|]. split; [done|]. split; [done|]. split; [done|].
  destruct (getitem_builds_sample [subject1] None true dataset1 0 subject1
              world0 Hkeys Hinit Hvalid eq_refl)
    as (imgs & sample & w' & Himgs & _ & Hk & _ & _ & Hrun).
  exists sample, w'. split; [done|]. rewrite Hk.
  assert (imgs = [t1; seg]) as ->; [|done].
  unfold subject1 in Himgs.
  destruct imgs as [|i1 [|i2 [|]]]; try done. by injection Himgs as <- <-.
Defined.

Lemma composed_transform_witness :
  tensors world1 !! 0 = Some ([1; 4; 5; 6], 1200%Z) ∧
  (apply_affine_transform affine_default 0 ([4; 4], 1%Z) [905; 912; 919]%Z
     [-9974; -9967; -9960]%Z Linear world1).1 = Ok 0.
Proof.
  assert (tensors world1 !! 0 = Some ([1; 4; 5; 6], 1200%Z)) as Ht
    by (vm_compute; reflexivity).
  split; [done|].
  assert (length (tensor_shape (([1; 4; 5; 6], 1200%Z) : tensor)) = 4) as H4
    by reflexivity.
  assert (tensor_shape (([1; 4; 5; 6], 1200%Z) : tensor) !! 0 = Some 1) as H1
    by reflexivity.
  destruct (composed_transform affine_default 0 ([4; 4], 1%Z)
              [905; 912; 919]%Z (-9974)%Z (-9967)%Z (-9960)%Z Linear
              _ world1 Ht H4 H1)
    as (_ & _ & Hrun).
  exact (f_equal fst Hrun).
Defined.



(** With the default bounds, [0.9] and [1.1], the three factors drawn
    from generator state [5] lie between the rounded bounds. *)
Example get_params_default_scales :
  let scales := (Ieee.ratio 9 10, Ieee.ratio 11 10) in
  Forall (@in_interval _ Ieee.externals
            (@float32_interval _ Ieee.externals scales))
    (@draws _ Ieee.externals 3 5%Z scales.1 scales.2).1.
Proof. repeat constructor. Qed.



Lemma label_interpolation_witness :
  RandomAffine_init (900, 1100)%Z (DegNumber 10000%Z) false Linear
    = Ok affine_default ∧
  check_consistent_shape (tensors world1) (dicts world1) sample1 = true ∧
  well_formed_images world1 (dict_values (stored affine_default sample1 world1)) ∧
  NoDup (data_refs world1 (dict_values (stored affine_default sample1 world1))) ∧
  parse_interpolation Linear = Ok (interpolation affine_default).
Proof.
  assert (RandomAffine_init (900, 1100)%Z (DegNumber 10000%Z) false Linear
          = Ok affine_default) as Hinit by reflexivity.
  assert (check_consistent_shape (tensors world1) (dicts world1) sample1 = true)
    as Hcheck by (vm_compute; reflexivity).
  assert (well_formed_images world1
            (dict_values (stored affine_default sample1 world1))) as Hwf
    by by_computation.
  assert (NoDup (data_refs world1
                   (dict_values (stored affine_default sample1 world1))))
    as Hnd by by_computation.
  split; [done|]. split; [done|]. split; [done|]. split; [done|].
  by destruct (label_interpolation _ _ _ _ _ sample1 world1 Hinit Hcheck
                 Hwf Hnd) as [Hparse _].
Defined.

Lemma apply_transform_frame_witness :
  RandomAffine_apply_transform affine_default sample1 world1
    = (Ok sample2, world2) ∧
  dicts world2 = dicts world1 ∧
  dict_get "t1" sample2 = dict_get "t1" sample1 ∧
  dict_get "random_scaling" sample2 = Some (VFloats [905; 912; 919]%Z) ∧
  dict_get "random_rotation" sample2
    = Some (VFloats [-9974; -9967; -9960]%Z).
Proof.
  assert (RandomAffine_apply_transform affine_default sample1 world1
          = (Ok sample2, world2)) as Hrun by (vm_compute; reflexivity).
  split; [done|].
  destruct (apply_transform_frame affine_default sample1 world1 sample2
              world2 Hrun)
    as (Hd & _ & (scaling & rotation & g & Hdrawn & Hs & Hr) & Hother & _).
  vm_compute in Hdrawn. injection Hdrawn as <- <- <-.
  split; [done|]. split; [by apply Hother|]. by split.
Defined.

(** C8 as first stated fails on a sample that went through the transform
    before: the entry under ['random_scaling'] is not an image dict, and
    the next call replaces it. *)
Lemma apply_transform_rewrites_params :
  ¬ (∀ k v, dict_get k sample2 = Some v →
            is_image_dict (dicts world2) v = false →
            ∃ sample', (RandomAffine_apply_transform affine_default sample2
                          world2).1 = Ok sample' ∧
                       dict_get k sample' = Some v).
Proof.
  intros Hclaim.
  pose proof (Hclaim "random_scaling"
                (VFloats ([905; 912; 919]%Z : list num)) eq_refl eq_refl)
    as (sample' & Hrun & Hget).
  vm_compute in Hrun. injection Hrun as <-. vm_compute in Hget. done.
Qed.

(** ** The further theorems at concrete inputs *)

Lemma valid_subject1 : valid_subject subject1.
Proof.
  split; [done|]. exists [t1; seg]. split; [done | by_computation].
Qed.

Lemma Subject_init_succeeds_iff_witness :
  valid_subject subject1 ∧
  Subject_init subject1 "subject" = Ok (mkSubject subject1 "subject").
Proof.
  split; [exact valid_subject1|].
  apply Subject_init_succeeds_iff. split; [exact valid_subject1 | done].
Defined.

Lemma Subject_init_errors_witness :
  NoDup (Image_name <$> [t1; seg]) ∧
  Image_name t1 ∈ Image_name <$> [t1; seg] ∧
  Subject_init [ObjImage t1; ObjImage seg; ObjOther; ObjImage t1] "subject"
    = Raise TypeError ∧
  Subject_init [ObjImage t1; ObjImage seg; ObjImage t1; ObjOther] "subject"
    = Raise KeyError.
Proof.
  assert (NoDup (Image_name <$> [t1; seg])) as Hnd by by_computation.
  assert (Image_name t1 ∈ Image_name <$> [t1; seg]) as Hin by by_computation.
  destruct (Subject_init_errors "subject") as (_ & Htype & Hkey).
  split; [done|]. split; [done|]. split.
  - exact (Htype [t1; seg] [ObjImage t1] Hnd).
  - exact (Hkey [t1; seg] t1 [ObjOther] Hnd Hin).
Defined.

Lemma ImagesDataset_init_succeeds_iff_witness :
  Forall valid_subject [subject1] ∧
  ImagesDataset_init [subject1] None true = Ok dataset1 ∧
  ImagesDataset_len dataset1 = 1.
Proof.
  assert (Forall valid_subject [subject1]) as Hall.
  { apply Forall_cons_2; [exact valid_subject1 | apply Forall_nil_2]. }
  split; [done|]. split; [|done].
  apply ImagesDataset_init_succeeds_iff. by repeat split.
Defined.

Lemma ImagesDataset_init_errors_witness :
  Forall valid_subject [subject1] ∧
  Subject_init [ObjImage t1; ObjImage t1] "" = Raise KeyError ∧
  ImagesDataset_init [subject1; [ObjImage t1; ObjImage t1]; []] None true
    = Raise KeyError.
Proof.
  assert (Forall valid_subject [subject1]) as Hall.
  { apply Forall_cons_2; [exact valid_subject1 | apply Forall_nil_2]. }
  assert (Subject_init [ObjImage t1; ObjImage t1] "" = Raise KeyError)
    as Hrej by reflexivity.
  split; [done|]. split; [done|].
  destruct (ImagesDataset_init_errors None true) as [_ Herr].
  exact (Herr [subject1] [ObjImage t1; ObjImage t1] [[]] KeyError Hall Hrej).
Defined.

Lemma getitem_index_error_witness :
  ImagesDataset_init [subject1] None true = Ok dataset1 ∧
  ¬ valid_index (ImagesDataset_len dataset1) 1 ∧
  (ImagesDataset_getitem dataset1 1 world0).1 = Raise IndexError ∧
  (ImagesDataset_getitem dataset1 1 world0).2 = world0.
Proof.
  assert (ImagesDataset_init [subject1] None true = Ok dataset1) as Hinit
    by reflexivity.
  assert (¬ valid_index (ImagesDataset_len dataset1) 1) as Hbad
    by (unfold valid_index; cbn; lia).
  destruct (getitem_index_error [subject1] true dataset1 1 world0 Hinit)
    as [Hiff Hsame].
  split; [done|]. split; [done|]. split; [by apply Hiff | by apply Hsame].
Defined.

Lemma getitem_effects_witness :
  ImagesDataset_init [subject1] None true = Ok dataset1 ∧
  valid_index (length [subject1]) 0 ∧
  reads (trace (ImagesDataset_getitem dataset1 0 world0).2)
    = ["/data/t1.nii"; "/data/seg.nii"].
Proof.
  assert (ImagesDataset_init [subject1] None true = Ok dataset1) as Hinit
    by reflexivity.
  assert (valid_index (length [subject1]) 0) as Hvalid
    by (unfold valid_index; cbn; lia).
  split; [done|]. split; [done|].
  destruct (getitem_effects [subject1] true dataset1 0 [t1; seg] world0
              Hinit Hvalid eq_refl) as (_ & Hreads & _).
  exact Hreads.
Defined.

Lemma getitem_no_sharing_witness :
  ImagesDataset_init [subject1] None true = Ok dataset1 ∧
  valid_index (length [subject1]) 0 ∧
  ∃ dls tls : list loc, NoDup dls ∧ NoDup tls ∧
    (ImagesDataset_getitem dataset1 0 world0).1
      = Ok (zip ["t1"; "seg"] (VDict <$> dls)).
Proof.
  assert (ImagesDataset_init [subject1] None true = Ok dataset1) as Hinit
    by reflexivity.
  assert (valid_index (length [subject1]) 0) as Hvalid
    by (unfold valid_index; cbn; lia).
  split; [done|]. split; [done|].
  destruct (getitem_no_sharing [subject1] true dataset1 0 [t1; seg] world0
              Hinit Hvalid eq_refl)
    as (dls & tls & Hrun & _ & _ & Hnd_d & Hnd_t & _).
  by exists dls, tls.
Defined.

Lemma written_volumes1 :
  Forall2 (λ kp va, written_volume world1 sample1 kp.1 = Some va) outputs1
    [(([4; 5; 6], 1200%Z), ([4; 4], 1%Z));
     (([4; 5; 6], 1300%Z), ([4; 4], 1%Z))].
Proof. repeat constructor. Qed.

Lemma save_sample_frame_witness :
  (ImagesDataset_save_sample sample1 outputs1 world1).1 = Ok tt ∧
  "seg" ∈ dict_keys outputs1 ∧
  "seg" ∈ dict_keys sample1 ∧
  tensors (ImagesDataset_save_sample sample1 outputs1 world1).2
    = tensors world1.
Proof.
  assert ((ImagesDataset_save_sample sample1 outputs1 world1).1 = Ok tt)
    as Hok by (vm_compute; reflexivity).
  assert ("seg" ∈ dict_keys outputs1) as Hin by by_computation.
  destruct (save_sample_frame sample1 outputs1 world1)
    as (Ht & _ & _ & _ & Hkeys).
  split; [done|]. split; [done|]. split; [|done].
  by destruct (Hkeys Hok "seg" Hin).
Defined.

Lemma save_sample_missing_key_witness :
  NoDup (dict_keys (outputs1 ++ [("t2", "/out/t2.nii"); ("ct", "/out/ct.nii")])) ∧
  dict_get "t2" sample1 = None ∧
  ImagesDataset_save_sample sample1
    (outputs1 ++ [("t2", "/out/t2.nii"); ("ct", "/out/ct.nii")]) world1
    = (Raise KeyError,
       set_files world1
         (["/data/t1.nii"; "/data/seg.nii"; "/out/t1.nii"; "/out/seg.nii"],
          ["/data/dicom"])).
Proof.
  assert (NoDup (dict_keys
            (outputs1 ++ [("t2", "/out/t2.nii"); ("ct", "/out/ct.nii")])))
    as Hnd by by_computation.
  split; [done|]. split; [done|].
  exact (save_sample_missing_key sample1 outputs1 [("ct", "/out/ct.nii")]
           "t2" "/out/t2.nii" _ world1 Hnd written_volumes1 eq_refl).
Defined.

Lemma save_sample_writes_witness :
  NoDup (dict_keys outputs1) ∧
  ImagesDataset_save_sample sample1 outputs1 world1
    = (Ok tt,
       set_files world1
         (["/data/t1.nii"; "/data/seg.nii"; "/out/t1.nii"; "/out/seg.nii"],
          ["/data/dicom"])).
Proof.
  assert (NoDup (dict_keys outputs1)) as Hnd by by_computation.
  split; [done|].
  exact (save_sample_writes sample1 outputs1 _ world1 Hnd written_volumes1).
Defined.

Lemma toy_unsqueeze_getitem (t : tensor) :
  tensor_getitem0 (tensor_unsqueeze0 t) = t.
Proof. by destruct t. Qed.

Lemma toy_keys : NoDup [DATA; AFFINE; "type"; "path"; "stem"].
Proof. by_computation. Qed.

Lemma getitem_then_save_sample_witness :
  NoDup [DATA; AFFINE; "type"; "path"; "stem"] ∧
  (∀ t : tensor, tensor_getitem0 (tensor_unsqueeze0 t) = t) ∧
  ImagesDataset_init [subject1] None true = Ok dataset1 ∧
  valid_index (length [subject1]) 0 ∧
  ∃ sample w1,
    ImagesDataset_getitem dataset1 0 world0 = (Ok sample, w1) ∧
    (ImagesDataset_save_sample sample
       (zip ["t1"; "seg"] ["/out/t1.nii"; "/out/seg.nii"]) w1).1 = Ok tt.
Proof.
  assert (ImagesDataset_init [subject1] None true = Ok dataset1) as Hinit
    by reflexivity.
  assert (valid_index (length [subject1]) 0) as Hvalid
    by (unfold valid_index; cbn; lia).
  split; [exact toy_keys|]. split; [exact toy_unsqueeze_getitem|].
  split; [done|]. split; [done|].
  destruct (getitem_then_save_sample [subject1] true dataset1 0 [t1; seg]
              ["/out/t1.nii"; "/out/seg.nii"] world0 toy_keys
              toy_unsqueeze_getitem Hinit Hvalid eq_refl eq_refl)
    as (sample & w1 & Hload & Hsave).
  exists sample, w1. split; [done|]. exact (f_equal fst Hsave).
Defined.

Lemma apply_affine_transform_outcomes_witness :
  tensors flat_world !! 1 = Some ([4; 5; 6], 1300%Z) ∧
  apply_affine_transform affine_default 1 ([4; 4], 1%Z) [905; 912; 919]%Z
    [-9974; -9967; -9960]%Z Nearest flat_world
    = (Raise AssertionError, flat_world) ∧
  tensors flat_world !! 0 = Some ([1; 4; 5; 6], 1200%Z) ∧
  apply_affine_transform affine_default 0 ([4; 4], 1%Z) [905; 912; 919]%Z
    [-9974; -9967]%Z Nearest flat_world
    = (Raise TypeError, flat_world) ∧
  ∃ x, apply_affine_transform affine_default 0 ([4; 4], 1%Z)
         [905; 912; 919]%Z [-9974; -9967; -9960]%Z Nearest flat_world
         = (Ok 0, set_tensors flat_world (<[0 := x]> (tensors flat_world))).
Proof.
  assert (tensors flat_world !! 1 = Some ([4; 5; 6], 1300%Z)) as Ht
    by (vm_compute; reflexivity).
  assert (tensors flat_world !! 0 = Some ([1; 4; 5; 6], 1200%Z)) as Ht0
    by (vm_compute; reflexivity).
  split; [done|].
  pose proof (apply_affine_transform_outcomes affine_default 1 ([4; 4], 1%Z)
                905%Z 912%Z 919%Z [-9974; -9967; -9960]%Z Nearest _
                flat_world Ht) as (Hassert & _).
  pose proof (apply_affine_transform_outcomes affine_default 0 ([4; 4], 1%Z)
                905%Z 912%Z 919%Z [-9974; -9967]%Z Nearest _
                flat_world Ht0) as (_ & Htype & _).
  pose proof (apply_affine_transform_outcomes affine_default 0 ([4; 4], 1%Z)
                905%Z 912%Z 919%Z [-9974; -9967; -9960]%Z Nearest _
                flat_world Ht0) as (_ & _ & Hok).
  split; [by apply Hassert|]. split; [done|].
  split; [by apply Htype|]. by apply Hok.
Defined.

Lemma apply_transform_generator_witness :
  check_consistent_shape (tensors flat_world) (dicts flat_world) shared_sample
    = false ∧
  (∃ e, RandomAffine_apply_transform affine_default shared_sample flat_world
          = (Raise e, flat_world)) ∧
  check_consistent_shape (tensors flat_world) (dicts flat_world)
    [("seg", VDict 1)] = true ∧
  (RandomAffine_apply_transform affine_default [("seg", VDict 1)]
     flat_world).1 = Raise AssertionError ∧
  generator (RandomAffine_apply_transform affine_default [("seg", VDict 1)]
               flat_world).2 = 47%Z.
Proof.
  assert (check_consistent_shape (tensors flat_world) (dicts flat_world)
            shared_sample = false) as Hbad by (vm_compute; reflexivity).
  assert (check_consistent_shape (tensors flat_world) (dicts flat_world)
            [("seg", VDict 1)] = true) as Hgood by (vm_compute; reflexivity).
  destruct (apply_transform_generator affine_default shared_sample flat_world)
    as [Hfail _].
  destruct (apply_transform_generator affine_default [("seg", VDict 1)]
              flat_world) as [_ Hpass].
  split; [done|]. split; [by apply Hfail|]. split; [done|].
  split; [vm_compute; reflexivity|].
  destruct (Hpass Hgood) as (Hg & _). rewrite Hg. vm_compute. reflexivity.
Defined.

Lemma apply_transform_no_images_witness :
  check_consistent_shape (tensors world0) (dicts world0) [] = true ∧
  Forall (λ v, is_image_dict (dicts world0) v = false)
    (dict_values (stored affine_default [] world0)) ∧
  (RandomAffine_apply_transform affine_default [] world0).1
    = Ok [("random_scaling", VFloats [905; 912; 919]%Z);
          ("random_rotation", VFloats [-9974; -9967; -9960]%Z)].
Proof.
  assert (check_consistent_shape (tensors world0) (dicts world0) [] = true)
    as Hcheck by reflexivity.
  assert (Forall (λ v, is_image_dict (dicts world0) v = false)
            (dict_values (stored affine_default [] world0))) as Hnone
    by by_computation.
  split; [done|]. split; [done|].
  destruct (apply_transform_no_images affine_default [] world0 Hcheck Hnone)
    as (Hrun & _).
  exact (f_equal fst Hrun).
Defined.

Lemma apply_transform_keys_witness :
  RandomAffine_apply_transform affine_default sample1 world1
    = (Ok sample2, world2) ∧
  dict_keys sample2 = ["t1"; "seg"; "random_scaling"; "random_rotation"].
Proof.
  assert (RandomAffine_apply_transform affine_default sample1 world1
          = (Ok sample2, world2)) as Hrun by (vm_compute; reflexivity).
  split; [done|].
  destruct (apply_transform_keys affine_default sample1 world1 sample2 world2
              Hrun) as [Hkeys _].
  exact Hkeys.
Defined.

Lemma toy_setitem_shape (t x : tensor) :
  tensor_shape (tensor_setitem0 t x) = tensor_shape t.
Proof. done. Qed.

Lemma apply_transform_shared_tensor_witness :
  check_consistent_shape (tensors shared_world) (dicts shared_world)
    shared_sample = true ∧
  well_formed_images shared_world [VDict 0] ∧
  NoDup (data_refs shared_world [VDict 0]) ∧
  ∃ w', RandomAffine_apply_transform affine_default shared_sample shared_world
          = (Ok (stored affine_default shared_sample shared_world), w').
Proof.
  assert (check_consistent_shape (tensors shared_world) (dicts shared_world)
            shared_sample = true) as Hcheck by (vm_compute; reflexivity).
  assert (well_formed_images shared_world [VDict 0]) as Hwf by by_computation.
  assert (NoDup (data_refs shared_world [VDict 0])) as Hnd by by_computation.
  split; [done|]. split; [done|]. split; [done|].
  pose proof (apply_transform_shared_tensor affine_default shared_sample
                shared_world [VDict 0]
                [VFloats ([905; 912; 919]%Z : list num);
                 VFloats ([-9974; -9967; -9960]%Z : list num)]
                (VDict 0) 1
                [("data", VTensor 0); ("affine", VArray ([4; 4], 1%Z));
                 ("type", VStr "intensity")]
                (VStr "intensity") (VStr "intensity") 0
                ([1; 4; 5; 6], 1200%Z) ([4; 4], 1%Z) ([4; 4], 1%Z)
                toy_setitem_shape Hcheck) as Hthm.
  destruct Hthm as (r0 & r1 & r2 & w' & _ & Hrun & _);
    try by_computation; try (vm_compute; reflexivity); try by left.
  by exists w'.
Defined.

Lemma toy_unsqueeze_shape (t : tensor) :
  tensor_shape (tensor_unsqueeze0 t) = 1 :: tensor_shape t.
Proof. done. Qed.

Lemma toy_floats_no_image (store : gmap loc (pydict value)) (xs : list num) :
  is_image_dict store (VFloats xs) = false.
Proof. done. Qed.

Lemma getitem_with_random_affine_witness :
  ImagesDataset_init [subject1]
    (Some (RandomAffine_apply_transform affine_default)) true
    = Ok dataset_affine ∧
  valid_index (length [subject1]) 0 ∧
  (ImagesDataset_getitem dataset_affine 0 world0).1 = Ok sample2.
Proof.
  assert (ImagesDataset_init [subject1]
            (Some (RandomAffine_apply_transform affine_default)) true
          = Ok dataset_affine) as Hinit by reflexivity.
  assert (valid_index (length [subject1]) 0) as Hvalid
    by (unfold valid_index; cbn; lia).
  split; [done|]. split; [done|].
  destruct (getitem_with_random_affine [subject1] true affine_default
              dataset_affine 0 [t1; seg] world0 toy_keys toy_unsqueeze_shape
              toy_floats_no_image Hinit Hvalid eq_refl)
    as (sample & w1 & r0 & r1 & r2 & w2 & Hload & _ & Hrun & _).
  - intros image Hin. done.
  - intros sample Hsample. vm_compute in Hsample. injection Hsample as <-.
    vm_compute. reflexivity.
  - rewrite Hrun. cbn [fst].
    assert ((ImagesDataset_getitem
               (ImagesDataset_set_transform dataset_affine None) 0 world0)
            = (Ok sample1, world1)) as Hload' by (vm_compute; reflexivity).
    rewrite Hload' in Hload. injection Hload as <- <-.
    vm_compute. reflexivity.
Defined.
